(** * Parachute trains: the Sweep & Wait simulation engine

    A shallow embedding of [src/lib/simulation.ts].  The TypeScript
    [number] fields only ever hold integers (they start from integer
    arguments and change by [+= 1] / [-= 1], which is exact as long as the
    values stay safe integers), so they are modelled as [Z]; the module
    [Float64] below writes the rounding of the doubles out, and the two are
    shown to agree on every run that stays within [max_safe_integer];
    the string-literal unions [TrainAction] and [SweepPhase] are closed
    enumerations; [number | null] is [option Z].  Every function of the
    source is pure (it copies the record with a spread before updating
    it), so each one is a plain Rocq function of the same name. *)

From Stdlib Require Import ZArith Bool List Lia.
Import ListNotations.

Open Scope Z_scope.

(* ================================================================== *)
(** ** Types *)

(** Possible actions a train can take. *)
Inductive TrainAction : Type :=
| forward
| backward
| wait.

(** Current phase of the sweep algorithm. *)
Inductive SweepPhase : Type :=
| sweep_forward
| return_from_forward
| sweep_backward
| return_from_backward.

(** State of an individual train. *)
Record TrainState : Type := mkTrainState {
  position : Z;
  parachutePosition : Z;
  distanceFromHome : Z;
  sweepPhase : SweepPhase;
  phaseNumber : Z;
  stepsInPhase : Z;
  isWaiting : bool
}.

(** Complete simulation state. *)
Record SimulationState : Type := mkSimulationState {
  trainA : TrainState;
  trainB : TrainState;
  stepCount : Z;
  hasCollided : bool;
  collisionPosition : option Z
}.

(** Field updates of the spread copy [newTrain = { ...train }]. *)
Definition set_position (v : Z) (t : TrainState) : TrainState :=
  mkTrainState v (parachutePosition t) (distanceFromHome t) (sweepPhase t)
               (phaseNumber t) (stepsInPhase t) (isWaiting t).

Definition set_distanceFromHome (v : Z) (t : TrainState) : TrainState :=
  mkTrainState (position t) (parachutePosition t) v (sweepPhase t)
               (phaseNumber t) (stepsInPhase t) (isWaiting t).

Definition set_sweepPhase (v : SweepPhase) (t : TrainState) : TrainState :=
  mkTrainState (position t) (parachutePosition t) (distanceFromHome t) v
               (phaseNumber t) (stepsInPhase t) (isWaiting t).

Definition set_phaseNumber (v : Z) (t : TrainState) : TrainState :=
  mkTrainState (position t) (parachutePosition t) (distanceFromHome t)
               (sweepPhase t) v (stepsInPhase t) (isWaiting t).

Definition set_stepsInPhase (v : Z) (t : TrainState) : TrainState :=
  mkTrainState (position t) (parachutePosition t) (distanceFromHome t)
               (sweepPhase t) (phaseNumber t) v (isWaiting t).

Definition set_isWaiting (v : bool) (t : TrainState) : TrainState :=
  mkTrainState (position t) (parachutePosition t) (distanceFromHome t)
               (sweepPhase t) (phaseNumber t) (stepsInPhase t) v.

(* ================================================================== *)
(** ** Train algorithm *)

(** [train.position === otherTrainParachutePos && train.distanceFromHome !== 0] *)
Definition isAtForeignParachute (train : TrainState) (otherTrainParachutePos : Z) : bool :=
  (position train =? otherTrainParachutePos) && negb (distanceFromHome train =? 0).

(** The [default] branch of the source's [switch] cannot be taken: the
    four cases exhaust [SweepPhase]. *)
Definition getNextAction (train : TrainState) (otherTrainParachutePos : Z) : TrainAction :=
  if isWaiting train then wait
  else if isAtForeignParachute train otherTrainParachutePos then wait
  else match sweepPhase train with
       | sweep_forward | return_from_backward => forward
       | return_from_forward | sweep_backward => backward
       end.

(** First [switch] of [applyAction]: the movement. *)
Definition applyMovement (train : TrainState) (action : TrainAction)
           (otherTrainParachutePos : Z) : TrainState :=
  match action with
  | forward =>
      set_stepsInPhase (stepsInPhase train + 1)
        (set_distanceFromHome (distanceFromHome train + 1)
           (set_position (position train + 1) train))
  | backward =>
      set_stepsInPhase (stepsInPhase train + 1)
        (set_distanceFromHome (distanceFromHome train - 1)
           (set_position (position train - 1) train))
  | wait =>
      if isAtForeignParachute train otherTrainParachutePos
      then set_isWaiting true train
      else train
  end.

(** Second part of [applyAction]: the phase transition, only if not waiting. *)
Definition applyPhaseTransition (newTrain : TrainState) : TrainState :=
  if negb (isWaiting newTrain) && (stepsInPhase newTrain >=? phaseNumber newTrain)
  then
    let reset := set_stepsInPhase 0 newTrain in
    match sweepPhase reset with
    | sweep_forward => set_sweepPhase return_from_forward reset
    | return_from_forward => set_sweepPhase sweep_backward reset
    | sweep_backward => set_sweepPhase return_from_backward reset
    | return_from_backward =>
        set_phaseNumber (phaseNumber reset + 1) (set_sweepPhase sweep_forward reset)
    end
  else newTrain.

Definition applyAction (train : TrainState) (action : TrainAction)
           (otherTrainParachutePos : Z) : TrainState :=
  applyPhaseTransition (applyMovement train action otherTrainParachutePos).

(* ================================================================== *)
(** ** Simulation engine *)

Definition createTrainState (pos : Z) : TrainState :=
  {| position := pos;
     parachutePosition := pos;
     distanceFromHome := 0;
     sweepPhase := sweep_forward;
     phaseNumber := 1;
     stepsInPhase := 0;
     isWaiting := false |}.

Definition createSimulation (distance : Z) : SimulationState :=
  {| trainA := createTrainState 0;
     trainB := createTrainState distance;
     stepCount := 0;
     hasCollided := false;
     collisionPosition := None |}.

Definition checkCollision (a b : TrainState) : bool :=
  position a =? position b.

Definition simulateStep (state : SimulationState) : SimulationState :=
  if hasCollided state then state
  else
    let actionA := getNextAction (trainA state) (parachutePosition (trainB state)) in
    let actionB := getNextAction (trainB state) (parachutePosition (trainA state)) in
    let newTrainA := applyAction (trainA state) actionA (parachutePosition (trainB state)) in
    let newTrainB := applyAction (trainB state) actionB (parachutePosition (trainA state)) in
    let collided := checkCollision newTrainA newTrainB in
    {| trainA := newTrainA;
       trainB := newTrainB;
       stepCount := stepCount state + 1;
       hasCollided := collided;
       collisionPosition := if collided then Some (position newTrainA) else None |}.

(** The [while] loop of [runSimulation].  Each iteration raises
    [stepCount] by one, so [maxSteps - stepCount] iterations always
    suffice; [fuel] bounds the number of iterations and
    [run_loop_exit] below shows that the bound used by [runSimulation]
    is never the reason the loop stops. *)
Fixpoint run_loop (fuel : nat) (maxSteps : Z) (state : SimulationState) : SimulationState :=
  match fuel with
  | O => state
  | S fuel' =>
      if negb (hasCollided state) && (stepCount state <? maxSteps)
      then run_loop fuel' maxSteps (simulateStep state)
      else state
  end.

Definition runSimulation (distance : Z) (maxSteps : Z) : SimulationState :=
  run_loop (Z.to_nat maxSteps) maxSteps (createSimulation distance).

(** The default value of the [maxSteps] parameter. *)
Definition default_maxSteps : Z := 10000.

(** [n] ticks of the driver, as the UI and the tests apply them. *)
Fixpoint simulateSteps (n : nat) (state : SimulationState) : SimulationState :=
  match n with
  | O => state
  | S n' => simulateSteps n' (simulateStep state)
  end.

(** One tick of a single train, as [simulateStep] performs it. *)
Definition tick (train : TrainState) (otherTrainParachutePos : Z) : TrainState :=
  applyAction train (getNextAction train otherTrainParachutePos) otherTrainParachutePos.

(* ================================================================== *)
(** ** Properties of states *)

(** The two trains of a world, by the identifier the UI gives them. *)
Inductive TrainId : Type := A | B.

Definition train_of (id : TrainId) (w : SimulationState) : TrainState :=
  match id with A => trainA w | B => trainB w end.

Definition other_of (id : TrainId) (w : SimulationState) : TrainState :=
  match id with A => trainB w | B => trainA w end.

(** [distanceFromHome] is the displacement from the train's own parachute. *)
Definition offset_ok (t : TrainState) : Prop :=
  distanceFromHome t = position t - parachutePosition t.

(** Range of the phase counters. *)
Definition phase_ok (t : TrainState) : Prop :=
  1 <= phaseNumber t /\ 0 <= stepsInPhase t < phaseNumber t.

(** The fields that a latched train must keep. *)
Definition same_motion (t t' : TrainState) : Prop :=
  position t' = position t /\ sweepPhase t' = sweepPhase t /\
  phaseNumber t' = phaseNumber t /\ stepsInPhase t' = stepsInPhase t.

(** Translation of a train along the line. *)
Definition shift (c : Z) (t : TrainState) : TrainState :=
  set_position (position t + c)
    (mkTrainState (position t) (parachutePosition t + c) (distanceFromHome t)
                  (sweepPhase t) (phaseNumber t) (stepsInPhase t) (isWaiting t)).

(** The same world seen with the two trains exchanged and the origin
    moved by [c]. *)
Definition swap_shift (c : Z) (w : SimulationState) : SimulationState :=
  {| trainA := shift c (trainB w);
     trainB := shift c (trainA w);
     stepCount := stepCount w;
     hasCollided := hasCollided w;
     collisionPosition := option_map (fun p => p + c) (collisionPosition w) |}.

(* ------------------------------------------------------------------ *)
(** *** The shape of a run with positive separation *)

Definition phase_index (p : SweepPhase) : Z :=
  match p with
  | sweep_forward => 0
  | return_from_forward => 1
  | sweep_backward => 2
  | return_from_backward => 3
  end.

(** Displacement of a train that is [k] steps into sub-phase [p] of
    cycle [n]. *)
Definition sweep_offset (p : SweepPhase) (n k : Z) : Z :=
  match p with
  | sweep_forward => k
  | return_from_forward => n - k
  | sweep_backward => - k
  | return_from_backward => k - n
  end.

(** Ticks needed to get [k] steps into sub-phase [p] of cycle [n]. *)
Definition elapsed (p : SweepPhase) (n k : Z) : Z :=
  2 * n * (n - 1) + phase_index p * n + k.

Definition sweeping_train (home : Z) (p : SweepPhase) (n k : Z) : TrainState :=
  {| position := home + sweep_offset p n k;
     parachutePosition := home;
     distanceFromHome := sweep_offset p n k;
     sweepPhase := p;
     phaseNumber := n;
     stepsInPhase := k;
     isWaiting := false |}.

Definition next_phase (p : SweepPhase) : SweepPhase :=
  match p with
  | sweep_forward => return_from_forward
  | return_from_forward => sweep_backward
  | sweep_backward => return_from_backward
  | return_from_backward => sweep_forward
  end.

(** The sweeping train one move later. *)
Definition sweeping_next (home : Z) (p : SweepPhase) (n k : Z) : TrainState :=
  if k + 1 <? n then sweeping_train home p n (k + 1)
  else sweeping_train home (next_phase p)
         (match p with return_from_backward => n + 1 | _ => n end) 0.

(** Both trains still sweep, in lockstep. *)
Definition searching_world (D : Z) (p : SweepPhase) (n k : Z) : SimulationState :=
  {| trainA := sweeping_train 0 p n k;
     trainB := sweeping_train D p n k;
     stepCount := elapsed p n k;
     hasCollided := false;
     collisionPosition := None |}.

(** Train A latched on B's parachute. *)
Definition latched_train (D : Z) : TrainState :=
  {| position := D;
     parachutePosition := 0;
     distanceFromHome := D;
     sweepPhase := return_from_forward;
     phaseNumber := D;
     stepsInPhase := 0;
     isWaiting := true |}.

(** A waits on B's parachute while B is [k] steps into its way home. *)
Definition holding_world (D k : Z) : SimulationState :=
  {| trainA := latched_train D;
     trainB := sweeping_train D return_from_forward D k;
     stepCount := elapsed return_from_forward D k;
     hasCollided := false;
     collisionPosition := None |}.

(** B is back home, where A waits. *)
Definition met_world (D : Z) : SimulationState :=
  {| trainA := latched_train D;
     trainB := sweeping_train D sweep_backward D 0;
     stepCount := 2 * D * D;
     hasCollided := true;
     collisionPosition := Some D |}.

Inductive approaching (D : Z) : SimulationState -> Prop :=
| approaching_search (p : SweepPhase) (n k : Z) :
    1 <= n -> 0 <= k < n ->
    n < D \/ (n = D /\ (p = sweep_forward \/ (p = return_from_forward /\ k = 0))) ->
    approaching D (searching_world D p n k)
| approaching_hold (k : Z) :
    1 <= k < D ->
    approaching D (holding_world D k).

(** The world after the first tick when both trains start on the same spot. *)
Definition bumped_world : SimulationState :=
  {| trainA := sweeping_train 0 return_from_forward 1 0;
     trainB := sweeping_train 0 return_from_forward 1 0;
     stepCount := 1;
     hasCollided := true;
     collisionPosition := Some 1 |}.

(* ------------------------------------------------------------------ *)
(** *** Coherence of the collision fields *)

(** [hasCollided] says whether the trains share a position, and
    [collisionPosition] is that position exactly when they do. *)
Definition collision_ok (w : SimulationState) : Prop :=
  hasCollided w = checkCollision (trainA w) (trainB w) /\
  collisionPosition w = if hasCollided w then Some (position (trainA w)) else None.

(* ================================================================== *)
(** ** The status bar of [src/components/Simulation.tsx]

    The status cell renders [state.hasCollided ? COLLISION :
    state.trainA.isWaiting || state.trainB.isWaiting ? Waiting : Searching]. *)

Inductive Status : Type :=
| Searching
| Waiting
| Collision.

Definition statusOf (state : SimulationState) : Status :=
  if hasCollided state then Collision
  else if isWaiting (trainA state) || isWaiting (trainB state) then Waiting
  else Searching.

(** Order in which a run goes through the statuses. *)
Definition status_rank (s : Status) : Z :=
  match s with
  | Searching => 0
  | Waiting => 1
  | Collision => 2
  end.

(* ================================================================== *)
(** ** The viewport of [src/components/Railway.tsx]

    Pixel offsets are the integer products the component computes;
    [centerPos] and the scroll effect divide by two and read the DOM, and
    are left out. *)

(** The default value of the [unitSize] prop. *)
Definition default_unitSize : Z := 40.

Definition minPos (state : SimulationState) : Z :=
  Z.min (Z.min (Z.min (position (trainA state)) (position (trainB state)))
               (parachutePosition (trainA state)))
        (parachutePosition (trainB state)) - 3.






(** Horizontal pixel offset of a train: [Train] gets
    [position - minPos] and animates [x] to that times [unitSize]. *)
Definition trainLeft (id : TrainId) (state : SimulationState) (unitSize : Z) : Z :=
  (position (train_of id state) - minPos state) * unitSize.


(** The collision indicator is rendered only when [hasCollided]; its
    [left] is [(state.collisionPosition! - minPos) * unitSize], where the
    [!] is erased at run time and a [null] would count as 0. *)
Definition collisionLeft (state : SimulationState) (unitSize : Z) : option Z :=
  if hasCollided state
  then Some ((match collisionPosition state with Some p => p | None => 0 end
              - minPos state) * unitSize)
  else None.

(* ================================================================== *)
(** ** The arithmetic of the doubles

    A TypeScript [number] is an IEEE 754 binary64.  Integers up to [2 ^ 53]
    in magnitude are represented exactly; a larger integer is rounded to the
    nearest multiple of the spacing at its size, ties going to the even
    mantissa.  The functions below are [applyAction] and [simulateStep] with
    every [+= 1] and [-= 1] rounded that way; the comparisons of
    [getNextAction] and [checkCollision] are exact on doubles and are used
    as they are. *)

(** [Number.MAX_SAFE_INTEGER]. *)
Definition max_safe_integer : Z := 2 ^ 53 - 1.

Module Float64.

(** The double nearest to the integer [z], ties to even (below the
    overflow threshold [2 ^ 1024], which adding or subtracting 1 never
    crosses). *)
Definition round (z : Z) : Z :=
  if Z.abs z <=? 2 ^ 53 then z
  else
    let s := Z.log2 (Z.abs z) - 52 in
    let q := Z.shiftr (Z.abs z) s in
    let r := Z.abs z - Z.shiftl q s in
    let half := 2 ^ (s - 1) in
    let q' := if r <? half then q
              else if half <? r then q + 1
              else if Z.even q then q else q + 1 in
    Z.sgn z * Z.shiftl q' s.

Definition add (x y : Z) : Z := round (x + y).

Definition sub (x y : Z) : Z := round (x - y).

Definition applyMovement (train : TrainState) (action : TrainAction)
           (otherTrainParachutePos : Z) : TrainState :=
  match action with
  | forward =>
      set_stepsInPhase (add (stepsInPhase train) 1)
        (set_distanceFromHome (add (distanceFromHome train) 1)
           (set_position (add (position train) 1) train))
  | backward =>
      set_stepsInPhase (add (stepsInPhase train) 1)
        (set_distanceFromHome (sub (distanceFromHome train) 1)
           (set_position (sub (position train) 1) train))
  | wait =>
      if isAtForeignParachute train otherTrainParachutePos
      then set_isWaiting true train
      else train
  end.

Definition applyPhaseTransition (newTrain : TrainState) : TrainState :=
  if negb (isWaiting newTrain) && (stepsInPhase newTrain >=? phaseNumber newTrain)
  then
    let reset := set_stepsInPhase 0 newTrain in
    match sweepPhase reset with
    | sweep_forward => set_sweepPhase return_from_forward reset
    | return_from_forward => set_sweepPhase sweep_backward reset
    | sweep_backward => set_sweepPhase return_from_backward reset
    | return_from_backward =>
        set_phaseNumber (add (phaseNumber reset) 1) (set_sweepPhase sweep_forward reset)
    end
  else newTrain.

Definition applyAction (train : TrainState) (action : TrainAction)
           (otherTrainParachutePos : Z) : TrainState :=
  applyPhaseTransition (applyMovement train action otherTrainParachutePos).

Definition simulateStep (state : SimulationState) : SimulationState :=
  if hasCollided state then state
  else
    let actionA := getNextAction (trainA state) (parachutePosition (trainB state)) in
    let actionB := getNextAction (trainB state) (parachutePosition (trainA state)) in
    let newTrainA := applyAction (trainA state) actionA (parachutePosition (trainB state)) in
    let newTrainB := applyAction (trainB state) actionB (parachutePosition (trainA state)) in
    let collided := checkCollision newTrainA newTrainB in
    {| trainA := newTrainA;
       trainB := newTrainB;
       stepCount := add (stepCount state) 1;
       hasCollided := collided;
       collisionPosition := if collided then Some (position newTrainA) else None |}.

Fixpoint simulateSteps (n : nat) (state : SimulationState) : SimulationState :=
  match n with
  | O => state
  | S n' => simulateSteps n' (simulateStep state)
  end.

End Float64.

(** Every counter of the train is at most [b] in magnitude. *)
Definition safe_train (b : Z) (t : TrainState) : Prop :=
  Z.abs (position t) <= b /\ Z.abs (distanceFromHome t) <= b /\
  Z.abs (stepsInPhase t) <= b /\ Z.abs (phaseNumber t) <= b.

Definition safe_world (b : Z) (w : SimulationState) : Prop :=
  safe_train b (trainA w) /\ safe_train b (trainB w) /\ Z.abs (stepCount w) <= b.

(* ================================================================== *)
(** ** The decision function *)

Ltac unfold_step :=
  unfold tick, applyAction, applyPhaseTransition, applyMovement, getNextAction,
    isAtForeignParachute, set_stepsInPhase, set_distanceFromHome, set_position,
    set_sweepPhase, set_phaseNumber, set_isWaiting in *; cbn in *.

Lemma isAtForeignParachute_spec (t : TrainState) (otherHome : Z) :
  offset_ok t ->
  isAtForeignParachute t otherHome = true <->
  position t = otherHome /\ position t <> parachutePosition t.
Proof.
  unfold offset_ok, isAtForeignParachute. intros Hoff.
  rewrite andb_true_iff, negb_true_iff, Z.eqb_eq, Z.eqb_neq. lia.
Qed.

(** C3: for a train whose [distanceFromHome] is [position - parachutePosition],
    [getNextAction] answers [wait] exactly when the train is latched or stands
    on the other parachute away from its own; otherwise the answer is
    [forward] in [sweep_forward] and [return_from_backward], and [backward]
    in [return_from_forward] and [sweep_backward]. *)
Theorem getNextAction_rules (t : TrainState) (otherHome : Z) :
  offset_ok t ->
  (getNextAction t otherHome = wait <->
   isWaiting t = true \/
   (position t = otherHome /\ position t <> parachutePosition t)) /\
  (~ (isWaiting t = true \/
      (position t = otherHome /\ position t <> parachutePosition t)) ->
   match sweepPhase t with
   | sweep_forward | return_from_backward => getNextAction t otherHome = forward
   | return_from_forward | sweep_backward => getNextAction t otherHome = backward
   end).
Proof.
  intros Hoff. pose proof (isAtForeignParachute_spec t otherHome Hoff) as Hf.
  unfold getNextAction.
  destruct (isWaiting t) eqn:Hw.
  - split; [ tauto | intros Hn; exfalso; apply Hn; now left ].
  - destruct (isAtForeignParachute t otherHome) eqn:Ha.
    + split; [ split; auto; intros _; right; now apply Hf
             | intros Hn; exfalso; apply Hn; right; now apply Hf ].
    + split.
      * split.
        -- destruct (sweepPhase t); discriminate.
        -- intros [Hc | Hc]; [ discriminate | apply Hf in Hc; discriminate ].
      * intros _. destruct (sweepPhase t); reflexivity.
Qed.

Lemma getNextAction_rules_witness :
  offset_ok (mkTrainState 3 0 3 return_from_forward 3 0 false) /\
  getNextAction (mkTrainState 3 0 3 return_from_forward 3 0 false) 3 = wait /\
  offset_ok (mkTrainState 2 0 2 return_from_forward 3 1 false) /\
  getNextAction (mkTrainState 2 0 2 return_from_forward 3 1 false) 3 = backward /\
  offset_ok (mkTrainState (-1) 0 (-1) return_from_backward 2 1 false) /\
  getNextAction (mkTrainState (-1) 0 (-1) return_from_backward 2 1 false) 3 = forward.
Proof.
  assert (H1 : offset_ok (mkTrainState 3 0 3 return_from_forward 3 0 false)) by reflexivity.
  assert (H2 : offset_ok (mkTrainState 2 0 2 return_from_forward 3 1 false)) by reflexivity.
  assert (H3 : offset_ok (mkTrainState (-1) 0 (-1) return_from_backward 2 1 false))
    by reflexivity.
  split; [ exact H1 | split ].
  - apply (proj1 (getNextAction_rules _ 3 H1)). right. cbn. split; [ reflexivity | lia ].
  - split; [ exact H2 | split ].
    + apply (proj2 (getNextAction_rules _ 3 H2)). cbn. intros [Hw | [Hp _]]; [ discriminate | lia ].
    + split; [ exact H3 | ].
      apply (proj2 (getNextAction_rules _ 3 H3)). cbn. intros [Hw | [Hp _]]; [ discriminate | lia ].
Defined.

(* ================================================================== *)
(** ** The transition function *)

(** The phase transition never touches the coordinates or the latch. *)
Lemma applyPhaseTransition_keeps (t : TrainState) :
  position (applyPhaseTransition t) = position t /\
  parachutePosition (applyPhaseTransition t) = parachutePosition t /\
  distanceFromHome (applyPhaseTransition t) = distanceFromHome t /\
  isWaiting (applyPhaseTransition t) = isWaiting t.
Proof.
  unfold applyPhaseTransition.
  destruct (negb (isWaiting t) && (stepsInPhase t >=? phaseNumber t)).
  - cbn. destruct (sweepPhase t); cbn; auto.
  - auto.
Qed.

Lemma applyAction_parachutePosition (t : TrainState) (a : TrainAction) (otherHome : Z) :
  parachutePosition (applyAction t a otherHome) = parachutePosition t.
Proof.
  unfold applyAction.
  destruct (applyPhaseTransition_keeps (applyMovement t a otherHome)) as (_ & -> & _).
  destruct a; cbn; auto.
  destruct (isAtForeignParachute t otherHome); reflexivity.
Qed.

Lemma tick_latched (t : TrainState) (otherHome : Z) :
  isWaiting t = true -> tick t otherHome = t.
Proof.
  intros Hw. unfold tick, getNextAction. rewrite Hw.
  unfold applyAction, applyMovement.
  assert (Hsame : set_isWaiting true t = t).
  { destruct t; cbn in *; subst; reflexivity. }
  rewrite Hsame.
  destruct (isAtForeignParachute t otherHome);
    unfold applyPhaseTransition; rewrite Hw; reflexivity.
Qed.

(** C10: [applyAction] moves a latched train when it is handed [forward] or
    [backward]; the latch is honoured by [getNextAction], which answers
    [wait] for such a train, and with that answer the train stays put. *)
Theorem applyAction_ignores_latch (t : TrainState) (otherHome : Z) :
  isWaiting t = true ->
  position (applyAction t forward otherHome) = position t + 1 /\
  position (applyAction t backward otherHome) = position t - 1 /\
  getNextAction t otherHome = wait /\
  applyAction t (getNextAction t otherHome) otherHome = t.
Proof.
  intros Hw. repeat split.
  - unfold applyAction.
    now destruct (applyPhaseTransition_keeps (applyMovement t forward otherHome)) as (-> & _).
  - unfold applyAction.
    now destruct (applyPhaseTransition_keeps (applyMovement t backward otherHome)) as (-> & _).
  - unfold getNextAction. now rewrite Hw.
  - now apply tick_latched.
Qed.

Lemma applyAction_ignores_latch_witness :
  isWaiting (latched_train 3) = true /\
  position (applyAction (latched_train 3) forward 3) = 4 /\
  position (applyAction (latched_train 3) backward 3) = 2.
Proof.
  assert (H : isWaiting (latched_train 3) = true) by reflexivity.
  destruct (applyAction_ignores_latch (latched_train 3) 3 H) as (Hf & Hb & _).
  split; [ exact H | split; [ exact Hf | exact Hb ] ].
Defined.

Lemma applyAction_offset_ok (t : TrainState) (a : TrainAction) (otherHome : Z) :
  offset_ok t -> offset_ok (applyAction t a otherHome).
Proof.
  unfold offset_ok, applyAction. intros Hoff.
  destruct (applyPhaseTransition_keeps (applyMovement t a otherHome)) as (-> & -> & -> & _).
  destruct a; cbn; try lia.
  destruct (isAtForeignParachute t otherHome); cbn; lia.
Qed.

(** The two ways an unlatched train can tick: it latches on the foreign
    parachute, or it moves one unit and may change sub-phase. *)
Lemma tick_latches (t : TrainState) (otherHome : Z) :
  isWaiting t = false -> isAtForeignParachute t otherHome = true ->
  tick t otherHome = set_isWaiting true t.
Proof.
  intros Hw Hf. unfold tick, getNextAction, applyAction, applyMovement.
  rewrite Hw, Hf. reflexivity.
Qed.

Lemma tick_moves (t : TrainState) (otherHome : Z) :
  isWaiting t = false -> isAtForeignParachute t otherHome = false ->
  tick t otherHome =
  applyPhaseTransition
    (match sweepPhase t with
     | sweep_forward | return_from_backward => applyMovement t forward otherHome
     | return_from_forward | sweep_backward => applyMovement t backward otherHome
     end).
Proof.
  intros Hw Hf. unfold tick, getNextAction, applyAction.
  rewrite Hw, Hf. destruct (sweepPhase t); reflexivity.
Qed.

Ltac tick_cases t otherHome Hw :=
  let Hf := fresh "Hf" in
  destruct (isAtForeignParachute t otherHome) eqn:Hf;
  [ rewrite (tick_latches t otherHome Hw Hf)
  | rewrite (tick_moves t otherHome Hw Hf);
    destruct t as [?pos ?home ?off ph ?num ?stp ?wt];
    unfold applyPhaseTransition, applyMovement; cbn in *; subst;
    destruct ph; cbn;
    match goal with
    | |- context [?a >=? ?b] => rewrite (Z.geb_leb a b); destruct (Z.leb_spec b a)
    end; cbn ].

Lemma tick_phase_ok (t : TrainState) (otherHome : Z) :
  phase_ok t -> phase_ok (tick t otherHome).
Proof.
  unfold phase_ok. intros Hok.
  destruct (isWaiting t) eqn:Hw; [ now rewrite tick_latched | ].
  tick_cases t otherHome Hw; cbn in *; lia.
Qed.

(** What one tick can do to [phaseNumber]. *)
Lemma tick_phaseNumber (t : TrainState) (otherHome : Z) :
  (phaseNumber (tick t otherHome) = phaseNumber t \/
   phaseNumber (tick t otherHome) = phaseNumber t + 1) /\
  (phaseNumber (tick t otherHome) <> phaseNumber t <->
   sweepPhase t = return_from_backward /\
   sweepPhase (tick t otherHome) = sweep_forward).
Proof.
  destruct (isWaiting t) eqn:Hw.
  - rewrite tick_latched by assumption.
    split; [ now left | ]. split; [ congruence | intros [-> H]; discriminate ].
  - tick_cases t otherHome Hw; cbn;
      (split; [ lia | split ]);
      try (intros Hne; first [ lia | split; reflexivity ]);
      intros [H1 H2]; first [ discriminate | congruence | lia ].
Qed.

(** [phaseNumber] changes only on the move that completes the sub-phase. *)
Lemma tick_cycle_complete (t : TrainState) (otherHome : Z) :
  phase_ok t ->
  phaseNumber (tick t otherHome) <> phaseNumber t ->
  isWaiting t = false /\ stepsInPhase t + 1 = phaseNumber t /\
  stepsInPhase (tick t otherHome) = 0.
Proof.
  unfold phase_ok. intros Hok.
  destruct (isWaiting t) eqn:Hw; [ rewrite tick_latched by assumption; congruence | ].
  tick_cases t otherHome Hw; cbn in *; intros Hne;
    first [ congruence | repeat split; lia ].
Qed.

(** The succession of the sub-phases.  A tick that ends with the latch set
    leaves the phase counters alone.  A tick that ends with it clear was a
    move: short of the [phaseNumber]-th step of the sub-phase it only counts
    the step; on the [phaseNumber]-th step it enters the next sub-phase of
    the cycle with the count back at 0, and [phaseNumber] grows by 1 exactly
    when the sub-phase left is [return_from_backward]. *)
Lemma tick_succession (t : TrainState) (otherHome : Z) :
  phase_ok t ->
  (isWaiting (tick t otherHome) = true ->
   sweepPhase (tick t otherHome) = sweepPhase t /\
   phaseNumber (tick t otherHome) = phaseNumber t /\
   stepsInPhase (tick t otherHome) = stepsInPhase t) /\
  (isWaiting (tick t otherHome) = false ->
   (stepsInPhase t + 1 < phaseNumber t /\
    sweepPhase (tick t otherHome) = sweepPhase t /\
    phaseNumber (tick t otherHome) = phaseNumber t /\
    stepsInPhase (tick t otherHome) = stepsInPhase t + 1) \/
   (stepsInPhase t + 1 = phaseNumber t /\
    sweepPhase (tick t otherHome) = next_phase (sweepPhase t) /\
    phaseNumber (tick t otherHome) =
    match sweepPhase t with
    | return_from_backward => phaseNumber t + 1
    | _ => phaseNumber t
    end /\
    stepsInPhase (tick t otherHome) = 0)).
Proof.
  unfold phase_ok. intros Hok.
  destruct (isWaiting t) eqn:Hw.
  - rewrite tick_latched by assumption. split; [ auto | congruence ].
  - tick_cases t otherHome Hw; cbn in *;
      (split; [ intros Hl; first [ discriminate | auto ] | intros Hl ]);
      first [ discriminate
            | left; repeat split; lia
            | right; repeat split; lia ].
Qed.

(* ================================================================== *)
(** ** The driver *)

Lemma simulateStep_collided (w : SimulationState) :
  hasCollided w = true -> simulateStep w = w.
Proof. unfold simulateStep. now intros ->. Qed.

(** On a live world each train ticks on its own, knowing only the other
    train's parachute. *)
Lemma simulateStep_train (id : TrainId) (w : SimulationState) :
  hasCollided w = false ->
  train_of id (simulateStep w) =
  tick (train_of id w) (parachutePosition (other_of id w)).
Proof. unfold simulateStep. intros ->. now destruct id. Qed.

Lemma simulateStep_stepCount (w : SimulationState) :
  hasCollided w = false -> stepCount (simulateStep w) = stepCount w + 1.
Proof. unfold simulateStep. now intros ->. Qed.

Lemma simulateSteps_add (n m : nat) (w : SimulationState) :
  simulateSteps (n + m) w = simulateSteps m (simulateSteps n w).
Proof. revert w. induction n as [| n IH]; intros w; cbn; auto. Qed.

Lemma simulateSteps_succ (n : nat) (w : SimulationState) :
  simulateSteps (S n) w = simulateStep (simulateSteps n w).
Proof.
  replace (S n) with (n + 1)%nat by lia. now rewrite simulateSteps_add.
Qed.

Lemma simulateSteps_collided (n : nat) (w : SimulationState) :
  hasCollided w = true -> simulateSteps n w = w.
Proof.
  intros Hc. induction n as [| n IH]; cbn; [ reflexivity | ].
  now rewrite simulateStep_collided.
Qed.

(** C5: a tick leaves a collided world exactly as it is. *)
Theorem simulateStep_frozen (w : SimulationState) :
  hasCollided w = true -> simulateStep w = w.
Proof. exact (simulateStep_collided w). Qed.

Lemma simulateStep_frozen_witness :
  hasCollided (met_world 3) = true /\ simulateStep (met_world 3) = met_world 3.
Proof.
  split; [ reflexivity | apply simulateStep_frozen; reflexivity ].
Defined.

(** C9: the post-tick state of a train is a function of its own pre-tick
    state and of the other train's parachute position alone. *)
Theorem simulateStep_no_communication (id : TrainId) (w1 w2 : SimulationState) :
  hasCollided w1 = false -> hasCollided w2 = false ->
  train_of id w1 = train_of id w2 ->
  parachutePosition (other_of id w1) = parachutePosition (other_of id w2) ->
  train_of id (simulateStep w1) = train_of id (simulateStep w2).
Proof.
  intros H1 H2 Hself Hhome.
  rewrite !simulateStep_train by assumption. now rewrite Hself, Hhome.
Qed.

Lemma simulateStep_no_communication_witness :
  trainB (searching_world 5 sweep_forward 2 1) <>
  trainB (mkSimulationState (sweeping_train 0 sweep_forward 2 1)
            (sweeping_train 5 sweep_backward 4 3) 9 false None) /\
  trainA (simulateStep (searching_world 5 sweep_forward 2 1)) =
  trainA (simulateStep
            (mkSimulationState (sweeping_train 0 sweep_forward 2 1)
               (sweeping_train 5 sweep_backward 4 3) 9 false None)).
Proof.
  split; [ discriminate | ].
  apply (simulateStep_no_communication A); reflexivity.
Defined.

(* ------------------------------------------------------------------ *)
(** *** Per-train invariants along a run *)

Section TrainInvariant.

Variable P : TrainState -> Prop.
Hypothesis P_tick : forall t otherHome, P t -> P (tick t otherHome).

Lemma simulateStep_invariant (w : SimulationState) :
  (forall id, P (train_of id w)) -> forall id, P (train_of id (simulateStep w)).
Proof.
  intros HP id. destruct (hasCollided w) eqn:Hc.
  - now rewrite simulateStep_collided.
  - rewrite simulateStep_train by assumption. apply P_tick, HP.
Qed.

Lemma simulateSteps_invariant (n : nat) (w : SimulationState) :
  (forall id, P (train_of id w)) -> forall id, P (train_of id (simulateSteps n w)).
Proof.
  revert w. induction n as [| n IH]; intros w HP; cbn; [ exact HP | ].
  apply IH, simulateStep_invariant, HP.
Qed.

End TrainInvariant.

Lemma createSimulation_offset_ok (D : Z) (id : TrainId) :
  offset_ok (train_of id (createSimulation D)).
Proof. destruct id; unfold offset_ok; cbn; lia. Qed.

Lemma createSimulation_phase_ok (D : Z) (id : TrainId) :
  phase_ok (train_of id (createSimulation D)).
Proof. destruct id; unfold phase_ok; cbn; lia. Qed.

Lemma reachable_phase_ok (D : Z) (n : nat) (id : TrainId) :
  phase_ok (train_of id (simulateSteps n (createSimulation D))).
Proof.
  apply simulateSteps_invariant; [ exact tick_phase_ok | ].
  apply createSimulation_phase_ok.
Qed.

(** C6: in every state reached from [createSimulation D] by [n] ticks,
    where the separation and the ticks stay within the safe integers
    ([|D| + n <= max_safe_integer]), both trains have
    [distanceFromHome = position - parachutePosition]. *)
Theorem reachable_offset_ok (D : Z) (n : nat) (id : TrainId) :
  Z.abs D + Z.of_nat n <= max_safe_integer ->
  offset_ok (train_of id (simulateSteps n (createSimulation D))).
Proof.
  intros _. apply simulateSteps_invariant.
  - intros t otherHome. apply applyAction_offset_ok.
  - apply createSimulation_offset_ok.
Qed.

Lemma reachable_offset_ok_witness :
  Z.abs (-5) + Z.of_nat 47 <= max_safe_integer /\
  offset_ok (train_of B (simulateSteps 47 (createSimulation (-5)))).
Proof.
  assert (H : Z.abs (-5) + Z.of_nat 47 <= max_safe_integer)
    by (apply Z.leb_le; reflexivity).
  split; [ exact H | exact (reachable_offset_ok (-5) 47 B H) ].
Defined.

Lemma simulateStep_latched (id : TrainId) (w : SimulationState) :
  isWaiting (train_of id w) = true ->
  train_of id (simulateStep w) = train_of id w.
Proof.
  intros Hw. destruct (hasCollided w) eqn:Hc.
  - now rewrite simulateStep_collided.
  - rewrite simulateStep_train by assumption. now apply tick_latched.
Qed.

Lemma simulateSteps_latched (id : TrainId) (m : nat) (w : SimulationState) :
  isWaiting (train_of id w) = true ->
  train_of id (simulateSteps m w) = train_of id w.
Proof.
  revert w. induction m as [| m IH]; intros w Hw; cbn; [ reflexivity | ].
  rewrite IH; rewrite simulateStep_latched; auto.
Qed.

(** C4: along a run from [createSimulation D], a train whose latch is set
    after [n] ticks still has it set after any [n + m] ticks, with the same
    position, sweep phase, phase number and steps in phase. *)
Theorem latch_absorbing (D : Z) (n m : nat) (id : TrainId) :
  isWaiting (train_of id (simulateSteps n (createSimulation D))) = true ->
  isWaiting (train_of id (simulateSteps (n + m) (createSimulation D))) = true /\
  same_motion (train_of id (simulateSteps n (createSimulation D)))
              (train_of id (simulateSteps (n + m) (createSimulation D))).
Proof.
  intros Hw. rewrite simulateSteps_add, simulateSteps_latched by assumption.
  unfold same_motion. auto.
Qed.

Lemma latch_absorbing_witness :
  isWaiting (train_of A (simulateSteps 16 (createSimulation 3))) = true /\
  isWaiting (train_of A (simulateSteps (16 + 1) (createSimulation 3))) = true /\
  position (train_of A (simulateSteps (16 + 1) (createSimulation 3))) = 3.
Proof.
  assert (H : isWaiting (train_of A (simulateSteps 16 (createSimulation 3))) = true)
    by reflexivity.
  destruct (latch_absorbing 3 16 1 A H) as (Hl & Hp & _).
  split; [ exact H | split; [ exact Hl | rewrite Hp; reflexivity ] ].
Defined.

Lemma simulateStep_phaseNumber (id : TrainId) (w : SimulationState) :
  (phaseNumber (train_of id (simulateStep w)) = phaseNumber (train_of id w) \/
   phaseNumber (train_of id (simulateStep w)) = phaseNumber (train_of id w) + 1) /\
  (phaseNumber (train_of id (simulateStep w)) <> phaseNumber (train_of id w) <->
   sweepPhase (train_of id w) = return_from_backward /\
   sweepPhase (train_of id (simulateStep w)) = sweep_forward).
Proof.
  destruct (hasCollided w) eqn:Hc.
  - rewrite simulateStep_collided by assumption.
    split; [ now left | ]. split; [ congruence | intros [-> H]; discriminate ].
  - rewrite simulateStep_train by assumption. apply tick_phaseNumber.
Qed.

Lemma simulateStep_cycle_complete (id : TrainId) (w : SimulationState) :
  phase_ok (train_of id w) ->
  phaseNumber (train_of id (simulateStep w)) <> phaseNumber (train_of id w) ->
  isWaiting (train_of id w) = false /\
  stepsInPhase (train_of id w) + 1 = phaseNumber (train_of id w) /\
  stepsInPhase (train_of id (simulateStep w)) = 0.
Proof.
  destruct (hasCollided w) eqn:Hc.
  - rewrite simulateStep_collided by assumption. congruence.
  - rewrite simulateStep_train by assumption. apply tick_cycle_complete.
Qed.

Lemma simulateStep_succession (id : TrainId) (w : SimulationState) :
  phase_ok (train_of id w) ->
  (hasCollided w = true \/ isWaiting (train_of id (simulateStep w)) = true ->
   sweepPhase (train_of id (simulateStep w)) = sweepPhase (train_of id w) /\
   phaseNumber (train_of id (simulateStep w)) = phaseNumber (train_of id w) /\
   stepsInPhase (train_of id (simulateStep w)) = stepsInPhase (train_of id w)) /\
  (hasCollided w = false -> isWaiting (train_of id (simulateStep w)) = false ->
   (stepsInPhase (train_of id w) + 1 < phaseNumber (train_of id w) /\
    sweepPhase (train_of id (simulateStep w)) = sweepPhase (train_of id w) /\
    phaseNumber (train_of id (simulateStep w)) = phaseNumber (train_of id w) /\
    stepsInPhase (train_of id (simulateStep w)) = stepsInPhase (train_of id w) + 1) \/
   (stepsInPhase (train_of id w) + 1 = phaseNumber (train_of id w) /\
    sweepPhase (train_of id (simulateStep w)) = next_phase (sweepPhase (train_of id w)) /\
    phaseNumber (train_of id (simulateStep w)) =
    match sweepPhase (train_of id w) with
    | return_from_backward => phaseNumber (train_of id w) + 1
    | _ => phaseNumber (train_of id w)
    end /\
    stepsInPhase (train_of id (simulateStep w)) = 0)).
Proof.
  intros Hok. destruct (hasCollided w) eqn:Hc.
  - rewrite simulateStep_collided by assumption. split; [ auto | discriminate ].
  - rewrite simulateStep_train by assumption.
    destruct (tick_succession (train_of id w) (parachutePosition (other_of id w)) Hok)
      as [Hstay Hmove].
    split; [ intros [Hf | Hl]; [ discriminate | exact (Hstay Hl) ] | intros _; exact Hmove ].
Qed.

Lemma simulateSteps_phaseNumber_mono (id : TrainId) (m : nat) (w : SimulationState) :
  phaseNumber (train_of id w) <= phaseNumber (train_of id (simulateSteps m w)).
Proof.
  revert w. induction m as [| m IH]; intros w; cbn; [ lia | ].
  specialize (IH (simulateStep w)).
  destruct (simulateStep_phaseNumber id w) as [[He | He] _]; lia.
Qed.

(** C7: in every state reached from [createSimulation D], each train has
    [phaseNumber >= 1] and [0 <= stepsInPhase < phaseNumber]; [phaseNumber]
    never decreases later in the run; one tick leaves it unchanged or adds
    exactly 1, and it changes exactly on the ticks that take the train from
    [return_from_backward] to [sweep_forward], which are moves that complete
    the [phaseNumber] steps of the sub-phase.  The sub-phases succeed one
    another in the cycle [sweep_forward], [return_from_forward],
    [sweep_backward], [return_from_backward], each lasting [phaseNumber]
    moves: a tick on a collided world or one that ends with the train
    latched leaves [sweepPhase], [phaseNumber] and [stepsInPhase] alone; any
    other tick either adds 1 to [stepsInPhase], staying below [phaseNumber]
    in the same sub-phase, or, making the [phaseNumber]-th step, enters
    [next_phase] with [stepsInPhase] 0, and [phaseNumber] grows (by 1) only
    if the sub-phase left is [return_from_backward], the fourth of the
    cycle. *)
Theorem phase_counters (D : Z) (n : nat) (id : TrainId) :
  phase_ok (train_of id (simulateSteps n (createSimulation D))) /\
  (forall m : nat,
     phaseNumber (train_of id (simulateSteps n (createSimulation D))) <=
     phaseNumber (train_of id (simulateSteps (n + m) (createSimulation D)))) /\
  (phaseNumber (train_of id (simulateSteps (S n) (createSimulation D))) =
   phaseNumber (train_of id (simulateSteps n (createSimulation D))) \/
   phaseNumber (train_of id (simulateSteps (S n) (createSimulation D))) =
   phaseNumber (train_of id (simulateSteps n (createSimulation D))) + 1) /\
  (phaseNumber (train_of id (simulateSteps (S n) (createSimulation D))) <>
   phaseNumber (train_of id (simulateSteps n (createSimulation D))) <->
   sweepPhase (train_of id (simulateSteps n (createSimulation D))) = return_from_backward /\
   sweepPhase (train_of id (simulateSteps (S n) (createSimulation D))) = sweep_forward) /\
  (phaseNumber (train_of id (simulateSteps (S n) (createSimulation D))) <>
   phaseNumber (train_of id (simulateSteps n (createSimulation D))) ->
   stepsInPhase (train_of id (simulateSteps n (createSimulation D))) + 1 =
   phaseNumber (train_of id (simulateSteps n (createSimulation D)))) /\
  (hasCollided (simulateSteps n (createSimulation D)) = true \/
   isWaiting (train_of id (simulateSteps (S n) (createSimulation D))) = true ->
   sweepPhase (train_of id (simulateSteps (S n) (createSimulation D))) =
   sweepPhase (train_of id (simulateSteps n (createSimulation D))) /\
   phaseNumber (train_of id (simulateSteps (S n) (createSimulation D))) =
   phaseNumber (train_of id (simulateSteps n (createSimulation D))) /\
   stepsInPhase (train_of id (simulateSteps (S n) (createSimulation D))) =
   stepsInPhase (train_of id (simulateSteps n (createSimulation D)))) /\
  (hasCollided (simulateSteps n (createSimulation D)) = false ->
   isWaiting (train_of id (simulateSteps (S n) (createSimulation D))) = false ->
   (stepsInPhase (train_of id (simulateSteps n (createSimulation D))) + 1 <
    phaseNumber (train_of id (simulateSteps n (createSimulation D))) /\
    sweepPhase (train_of id (simulateSteps (S n) (createSimulation D))) =
    sweepPhase (train_of id (simulateSteps n (createSimulation D))) /\
    phaseNumber (train_of id (simulateSteps (S n) (createSimulation D))) =
    phaseNumber (train_of id (simulateSteps n (createSimulation D))) /\
    stepsInPhase (train_of id (simulateSteps (S n) (createSimulation D))) =
    stepsInPhase (train_of id (simulateSteps n (createSimulation D))) + 1) \/
   (stepsInPhase (train_of id (simulateSteps n (createSimulation D))) + 1 =
    phaseNumber (train_of id (simulateSteps n (createSimulation D))) /\
    sweepPhase (train_of id (simulateSteps (S n) (createSimulation D))) =
    next_phase (sweepPhase (train_of id (simulateSteps n (createSimulation D)))) /\
    phaseNumber (train_of id (simulateSteps (S n) (createSimulation D))) =
    match sweepPhase (train_of id (simulateSteps n (createSimulation D))) with
    | return_from_backward =>
        phaseNumber (train_of id (simulateSteps n (createSimulation D))) + 1
    | _ => phaseNumber (train_of id (simulateSteps n (createSimulation D)))
    end /\
    stepsInPhase (train_of id (simulateSteps (S n) (createSimulation D))) = 0)).
Proof.
  split; [ apply reachable_phase_ok | ].
  split; [ intros m; rewrite simulateSteps_add; apply simulateSteps_phaseNumber_mono | ].
  rewrite simulateSteps_succ.
  destruct (simulateStep_phaseNumber id (simulateSteps n (createSimulation D))) as [H1 H2].
  split; [ exact H1 | split; [ exact H2 | split ] ].
  - intros Hne. apply simulateStep_cycle_complete; [ apply reachable_phase_ok | exact Hne ].
  - apply simulateStep_succession, reachable_phase_ok.
Qed.

Lemma phase_counters_witness :
  phaseNumber (train_of A (simulateSteps 4 (createSimulation 9))) <>
  phaseNumber (train_of A (simulateSteps 3 (createSimulation 9))) /\
  sweepPhase (train_of A (simulateSteps 3 (createSimulation 9))) = return_from_backward /\
  stepsInPhase (train_of A (simulateSteps 3 (createSimulation 9))) + 1 =
  phaseNumber (train_of A (simulateSteps 3 (createSimulation 9))) /\
  (hasCollided (simulateSteps 5 (createSimulation 9)) = false /\
   isWaiting (train_of A (simulateSteps 6 (createSimulation 9))) = false) /\
  sweepPhase (train_of A (simulateSteps 5 (createSimulation 9))) = sweep_forward /\
  sweepPhase (train_of A (simulateSteps 6 (createSimulation 9))) =
  next_phase (sweepPhase (train_of A (simulateSteps 5 (createSimulation 9)))) /\
  phaseNumber (train_of A (simulateSteps 6 (createSimulation 9))) =
  phaseNumber (train_of A (simulateSteps 5 (createSimulation 9))).
Proof.
  assert (H : phaseNumber (train_of A (simulateSteps 4 (createSimulation 9))) <>
              phaseNumber (train_of A (simulateSteps 3 (createSimulation 9))))
    by (vm_compute; discriminate).
  assert (Hc : hasCollided (simulateSteps 5 (createSimulation 9)) = false) by reflexivity.
  assert (Hw : isWaiting (train_of A (simulateSteps 6 (createSimulation 9))) = false)
    by reflexivity.
  destruct (phase_counters 9 3 A) as (_ & _ & _ & Hiff & Hfull & _).
  destruct (phase_counters 9 5 A) as (_ & _ & _ & _ & _ & _ & Hmove).
  split; [ exact H | split; [ exact (proj1 (proj1 Hiff H)) | split; [ exact (Hfull H) | ] ] ].
  split; [ split; [ exact Hc | exact Hw ] | ].
  split; [ reflexivity | ].
  destruct (Hmove Hc Hw) as [(Hlt & _) | (_ & Hs & Hn & _)].
  - vm_compute in Hlt. discriminate Hlt.
  - split; [ exact Hs | exact Hn ].
Defined.

(* ================================================================== *)
(** ** The loop of [runSimulation] *)

Lemma run_loop_collided (fuel : nat) (maxSteps : Z) (w : SimulationState) :
  hasCollided w = true -> run_loop fuel maxSteps w = w.
Proof. intros Hc. destruct fuel; cbn; [ | rewrite Hc ]; reflexivity. Qed.

(** The loop stops for the reason the source's [while] stops: with the fuel
    that [runSimulation] provides, the result is collided or has used up the
    step budget. *)
Lemma run_loop_exit (fuel : nat) (maxSteps : Z) (w : SimulationState) :
  (Z.to_nat (maxSteps - stepCount w) <= fuel)%nat ->
  hasCollided (run_loop fuel maxSteps w) = true \/
  maxSteps <= stepCount (run_loop fuel maxSteps w).
Proof.
  revert w. induction fuel as [| fuel IH]; intros w Hfuel; cbn.
  - right. lia.
  - destruct (hasCollided w) eqn:Hc; cbn; [ now left | ].
    destruct (Z.ltb_spec (stepCount w) maxSteps) as [Hlt | Hge]; [ | right; lia ].
    apply IH. rewrite simulateStep_stepCount by assumption. lia.
Qed.

Lemma runSimulation_exit (D maxSteps : Z) :
  hasCollided (runSimulation D maxSteps) = true \/
  maxSteps <= stepCount (runSimulation D maxSteps).
Proof. apply run_loop_exit. cbn. lia. Qed.

(** More fuel than the budget changes nothing. *)
Lemma run_loop_fuel (fuel : nat) (maxSteps : Z) (w : SimulationState) :
  (Z.to_nat (maxSteps - stepCount w) <= fuel)%nat ->
  run_loop (S fuel) maxSteps w = run_loop fuel maxSteps w.
Proof.
  revert w. induction fuel as [| fuel IH]; intros w Hfuel.
  - cbn. destruct (hasCollided w); cbn; [ reflexivity | ].
    destruct (Z.ltb_spec (stepCount w) maxSteps); [ lia | reflexivity ].
  - change (run_loop (S (S fuel)) maxSteps w) with
      (if negb (hasCollided w) && (stepCount w <? maxSteps)
       then run_loop (S fuel) maxSteps (simulateStep w) else w).
    change (run_loop (S fuel) maxSteps w) with
      (if negb (hasCollided w) && (stepCount w <? maxSteps)
       then run_loop fuel maxSteps (simulateStep w) else w).
    destruct (hasCollided w) eqn:Hc; cbn; [ reflexivity | ].
    destruct (Z.ltb_spec (stepCount w) maxSteps); [ | reflexivity ].
    apply IH. rewrite simulateStep_stepCount by assumption. lia.
Qed.

(* ================================================================== *)
(** ** Sweeping trains *)

Lemma tick_sweeping (home otherHome : Z) (p : SweepPhase) (n k : Z) :
  0 <= k < n ->
  home + sweep_offset p n k <> otherHome ->
  tick (sweeping_train home p n k) otherHome = sweeping_next home p n k.
Proof.
  intros Hk Hfar.
  assert (Hf : isAtForeignParachute (sweeping_train home p n k) otherHome = false).
  { unfold isAtForeignParachute. cbn.
    destruct (Z.eqb_spec (home + sweep_offset p n k) otherHome); [ contradiction | reflexivity ]. }
  rewrite tick_moves by (assumption || reflexivity).
  unfold sweeping_next, applyPhaseTransition, sweeping_train.
  destruct p; cbn; rewrite Z.geb_leb;
    destruct (Z.leb_spec n (k + 1)); destruct (Z.ltb_spec (k + 1) n); try lia;
    unfold_step; f_equal; lia.
Qed.

Lemma tick_finds (D : Z) :
  0 < D ->
  tick (sweeping_train 0 return_from_forward D 0) D = latched_train D.
Proof.
  intros HD. rewrite tick_latches; [ | reflexivity | ].
  - unfold latched_train, set_isWaiting. cbn. f_equal; lia.
  - unfold isAtForeignParachute. cbn. rewrite Z.sub_0_r, Z.eqb_refl.
    destruct (Z.eqb_spec D 0); [ lia | reflexivity ].
Qed.

Lemma sweep_offset_bound (p : SweepPhase) (n k : Z) :
  0 <= k < n -> - n <= sweep_offset p n k <= n.
Proof. destruct p; cbn; lia. Qed.

(* ================================================================== *)
(** ** A run with positive separation *)

#[local] Arguments Z.mul : simpl never.

Lemma simulateStep_live (w : SimulationState) :
  hasCollided w = false ->
  simulateStep w =
  let a := tick (trainA w) (parachutePosition (trainB w)) in
  let b := tick (trainB w) (parachutePosition (trainA w)) in
  {| trainA := a;
     trainB := b;
     stepCount := stepCount w + 1;
     hasCollided := position a =? position b;
     collisionPosition := if position a =? position b then Some (position a) else None |}.
Proof. unfold simulateStep. now intros ->. Qed.

Lemma createSimulation_searching (D : Z) :
  createSimulation D = searching_world D sweep_forward 1 0.
Proof.
  unfold createSimulation, searching_world, createTrainState, sweeping_train. cbn.
  now rewrite Z.add_0_r.
Qed.

(** While both trains sweep they move alike and stay [D] apart. *)
Lemma searching_step (D : Z) (p : SweepPhase) (n k : Z) :
  0 < D -> 0 <= k < n ->
  n < D \/ (n = D /\ p = sweep_forward) ->
  simulateStep (searching_world D p n k) =
  {| trainA := sweeping_next 0 p n k;
     trainB := sweeping_next D p n k;
     stepCount := elapsed p n k + 1;
     hasCollided := false;
     collisionPosition := None |}.
Proof.
  intros HD Hk Hn.
  pose proof (sweep_offset_bound p n k Hk) as Hb.
  assert (Hoff : - D < sweep_offset p n k < D).
  { destruct Hn as [Hn | [-> ->]]; [ lia | cbn; lia ]. }
  rewrite simulateStep_live by reflexivity. cbn -[sweep_offset].
  rewrite !tick_sweeping by (cbn -[sweep_offset]; lia).
  assert (Hapart : (position (sweeping_next 0 p n k) =? position (sweeping_next D p n k)) = false).
  { apply Z.eqb_neq. unfold sweeping_next.
    destruct (k + 1 <? n); cbn -[sweep_offset]; lia. }
  now rewrite Hapart.
Qed.

Lemma searching_next (D : Z) (p : SweepPhase) (n k : Z) :
  0 <= k < n ->
  {| trainA := sweeping_next 0 p n k;
     trainB := sweeping_next D p n k;
     stepCount := elapsed p n k + 1;
     hasCollided := false;
     collisionPosition := None |} =
  if k + 1 <? n then searching_world D p n (k + 1)
  else searching_world D (next_phase p)
         (match p with return_from_backward => n + 1 | _ => n end) 0.
Proof.
  intros Hk. unfold sweeping_next, searching_world.
  destruct (Z.ltb_spec (k + 1) n); f_equal; unfold elapsed; destruct p; cbn; lia.
Qed.

(** The tick on which A stands on B's parachute: A latches, B turns back. *)
Lemma found_step (D : Z) :
  0 < D ->
  simulateStep (searching_world D return_from_forward D 0) =
  if D =? 1 then met_world D else holding_world D 1.
Proof.
  intros HD. rewrite simulateStep_live by reflexivity. cbn -[sweep_offset].
  rewrite tick_finds by assumption.
  rewrite tick_sweeping by (cbn; lia).
  unfold sweeping_next. cbn.
  destruct (Z.eqb_spec D 1) as [-> | Hne]; [ reflexivity | ].
  destruct (Z.ltb_spec 1 D); [ | lia ]. cbn.
  destruct (Z.eqb_spec D (D + (D - 1))); [ lia | ].
  unfold holding_world, elapsed. cbn. f_equal. lia.
Qed.

(** While A waits, B walks home; they meet when it arrives. *)
Lemma holding_step (D k : Z) :
  1 <= k < D ->
  simulateStep (holding_world D k) =
  if k + 1 =? D then met_world D else holding_world D (k + 1).
Proof.
  intros Hk. rewrite simulateStep_live by reflexivity. cbn -[sweep_offset].
  rewrite tick_latched by reflexivity.
  rewrite tick_sweeping by (cbn; lia).
  unfold sweeping_next.
  destruct (Z.eqb_spec (k + 1) D) as [He | Hne].
  - destruct (Z.ltb_spec (k + 1) D); [ lia | ]. cbn.
    rewrite Z.add_0_r, Z.eqb_refl.
    unfold met_world, elapsed. cbn. f_equal. lia.
  - destruct (Z.ltb_spec (k + 1) D); [ | lia ]. cbn.
    destruct (Z.eqb_spec D (D + (D - (k + 1)))); [ lia | ].
    unfold holding_world, elapsed. cbn. f_equal. lia.
Qed.

Lemma approaching_live (D : Z) (w : SimulationState) :
  approaching D w -> hasCollided w = false /\ 0 <= stepCount w < 2 * D * D.
Proof.
  intros [p n k Hn Hk Hd | k Hk]; (split; [ reflexivity | ]); cbn; unfold elapsed.
  - destruct Hd as [Hd | [-> [-> | [-> ->]]]]; cbn; try nia.
    destruct p; cbn; nia.
  - unfold phase_index. nia.
Qed.

Lemma approaching_step (D : Z) (w : SimulationState) :
  0 < D -> approaching D w ->
  approaching D (simulateStep w) \/ simulateStep w = met_world D.
Proof.
  intros HD [p n k Hn Hk Hd | k Hk].
  - destruct Hd as [Hd | [-> [-> | [-> ->]]]].
    + rewrite searching_step, searching_next by (auto; lia).
      left. destruct (Z.ltb_spec (k + 1) n).
      * constructor; lia.
      * assert (Hcase : n + 1 < D \/ n + 1 = D) by lia.
        destruct p; cbn; constructor; try lia.
        destruct Hcase; [ now left | right; split; auto ].
    + rewrite searching_step, searching_next by (auto; lia).
      left. destruct (Z.ltb_spec (k + 1) D); cbn; constructor; try lia.
      * right. auto.
      * right. auto.
    + rewrite found_step by assumption.
      destruct (Z.eqb_spec D 1); [ now right | left; constructor; lia ].
  - rewrite holding_step by assumption.
    destruct (Z.eqb_spec (k + 1) D); [ now right | left; constructor; lia ].
Qed.

Lemma createSimulation_approaching (D : Z) :
  0 < D -> approaching D (createSimulation D).
Proof.
  intros HD. rewrite createSimulation_searching. constructor; try lia.
  destruct (Z.eq_dec D 1); [ right; auto | left; lia ].
Qed.

Lemma run_loop_approaching (D maxSteps : Z) (fuel : nat) (w : SimulationState) :
  0 < D -> approaching D w -> 2 * D * D <= maxSteps ->
  (Z.to_nat (2 * D * D - stepCount w) <= fuel)%nat ->
  run_loop fuel maxSteps w = met_world D.
Proof.
  intros HD. revert w. induction fuel as [| fuel IH]; intros w Hw Hmax Hfuel;
    destruct (approaching_live D w Hw) as [Hlive Hcount].
  - lia.
  - cbn. rewrite Hlive. destruct (Z.ltb_spec (stepCount w) maxSteps); [ cbn | lia ].
    destruct (approaching_step D w HD Hw) as [Hnext | ->].
    + apply IH; auto. rewrite simulateStep_stepCount by assumption. lia.
    + now apply run_loop_collided.
Qed.

(** With separation [D > 0] and a budget of at least [2 * D * D] ticks, the
    run ends with A latched on B's parachute and B back on it. *)
Lemma runSimulation_positive (D maxSteps : Z) :
  0 < D -> 2 * D * D <= maxSteps -> runSimulation D maxSteps = met_world D.
Proof.
  intros HD Hmax. unfold runSimulation.
  apply run_loop_approaching; auto using createSimulation_approaching.
  cbn. lia.
Qed.

Lemma runSimulation_zero (maxSteps : Z) :
  1 <= maxSteps -> runSimulation 0 maxSteps = bumped_world.
Proof.
  intros Hmax. unfold runSimulation.
  destruct (Z.to_nat maxSteps) as [| fuel] eqn:Hfuel; [ lia | ].
  cbn. destruct (Z.ltb_spec 0 maxSteps); [ | lia ].
  now apply run_loop_collided.
Qed.

(* ================================================================== *)
(** ** Exchanging the trains *)

Lemma isAtForeignParachute_shift (c : Z) (t : TrainState) (otherHome : Z) :
  isAtForeignParachute (shift c t) (otherHome + c) = isAtForeignParachute t otherHome.
Proof.
  unfold isAtForeignParachute. cbn. f_equal.
  destruct (Z.eqb_spec (position t + c) (otherHome + c));
    destruct (Z.eqb_spec (position t) otherHome); lia || reflexivity.
Qed.

Lemma applyPhaseTransition_shift (c : Z) (t : TrainState) :
  applyPhaseTransition (shift c t) = shift c (applyPhaseTransition t).
Proof.
  unfold applyPhaseTransition. cbn.
  destruct (negb (isWaiting t) && (stepsInPhase t >=? phaseNumber t)); [ | reflexivity ].
  cbn. destruct (sweepPhase t); reflexivity.
Qed.

(** The algorithm does not depend on where the origin of the line is. *)
Lemma tick_shift (c : Z) (t : TrainState) (otherHome : Z) :
  tick (shift c t) (otherHome + c) = shift c (tick t otherHome).
Proof.
  destruct (isWaiting t) eqn:Hw; [ now rewrite !tick_latched | ].
  pose proof (isAtForeignParachute_shift c t otherHome) as Hsh.
  destruct (isAtForeignParachute t otherHome) eqn:Hf.
  - now rewrite !tick_latches.
  - rewrite !tick_moves by assumption. cbn [shift sweepPhase set_position].
    rewrite <- applyPhaseTransition_shift. f_equal.
    destruct (sweepPhase t); unfold shift; unfold_step; f_equal; lia.
Qed.

Lemma simulateStep_swap_shift (c : Z) (w : SimulationState) :
  simulateStep (swap_shift c w) = swap_shift c (simulateStep w).
Proof.
  destruct (hasCollided w) eqn:Hc.
  - rewrite !simulateStep_collided; auto.
  - rewrite !simulateStep_live by assumption.
    unfold swap_shift. cbn -[tick shift].
    change (parachutePosition (shift c (trainA w))) with (parachutePosition (trainA w) + c).
    change (parachutePosition (shift c (trainB w))) with (parachutePosition (trainB w) + c).
    rewrite !tick_shift.
    set (a := tick (trainA w) (parachutePosition (trainB w))).
    set (b := tick (trainB w) (parachutePosition (trainA w))).
    change (position (shift c a)) with (position a + c).
    change (position (shift c b)) with (position b + c).
    destruct (Z.eqb_spec (position a) (position b)) as [He | Hne].
    + rewrite He, Z.eqb_refl. reflexivity.
    + destruct (Z.eqb_spec (position b + c) (position a + c)); [ lia | reflexivity ].
Qed.

Lemma simulateSteps_swap_shift (c : Z) (n : nat) (w : SimulationState) :
  simulateSteps n (swap_shift c w) = swap_shift c (simulateSteps n w).
Proof.
  revert w. induction n as [| n IH]; intros w; cbn; [ reflexivity | ].
  now rewrite simulateStep_swap_shift, IH.
Qed.

Lemma run_loop_swap_shift (c : Z) (fuel : nat) (maxSteps : Z) (w : SimulationState) :
  run_loop fuel maxSteps (swap_shift c w) = swap_shift c (run_loop fuel maxSteps w).
Proof.
  revert w. induction fuel as [| fuel IH]; intros w; cbn; [ reflexivity | ].
  destruct (negb (hasCollided w) && (stepCount w <? maxSteps)); [ | reflexivity ].
  now rewrite simulateStep_swap_shift, IH.
Qed.

(** Separation [- D] is separation [D] with the trains exchanged and the
    origin put on B's parachute. *)
Lemma createSimulation_opp (D : Z) :
  createSimulation (- D) = swap_shift (- D) (createSimulation D).
Proof.
  unfold createSimulation, swap_shift, shift, createTrainState, set_position. cbn.
  now rewrite Z.add_opp_diag_r.
Qed.

Lemma runSimulation_opp (D maxSteps : Z) :
  runSimulation (- D) maxSteps = swap_shift (- D) (runSimulation D maxSteps).
Proof.
  unfold runSimulation. now rewrite createSimulation_opp, run_loop_swap_shift.
Qed.

Lemma runSimulation_negative (D maxSteps : Z) :
  D < 0 -> 2 * D * D <= maxSteps ->
  runSimulation D maxSteps = swap_shift D (met_world (- D)).
Proof.
  intros HD Hmax. rewrite <- (Z.opp_involutive D) at 1.
  rewrite runSimulation_opp, runSimulation_positive by lia.
  now rewrite Z.opp_involutive.
Qed.

(** Whatever the separation, a budget of [2 * D * D + 1] ticks is enough. *)
Lemma runSimulation_collides (D maxSteps : Z) :
  2 * D * D + 1 <= maxSteps -> hasCollided (runSimulation D maxSteps) = true.
Proof.
  intros Hmax. destruct (Z.lt_trichotomy D 0) as [Hneg | [-> | Hpos]].
  - rewrite runSimulation_negative by lia. reflexivity.
  - rewrite runSimulation_zero by lia. reflexivity.
  - rewrite runSimulation_positive by lia. reflexivity.
Qed.

(* ================================================================== *)
(** ** Collision *)

(** C1: for every bound there is a step budget [S] such that every
    separation [D] with [|D| <= bound] collides within any budget of at
    least [S] ticks; and [runSimulation 100 50000] collides. *)
Theorem eventual_collision :
  (forall bound : Z, 0 <= bound ->
     exists S : Z, forall D maxSteps : Z,
       Z.abs D <= bound -> S <= maxSteps ->
       hasCollided (runSimulation D maxSteps) = true) /\
  hasCollided (runSimulation 100 50000) = true.
Proof.
  split.
  - intros bound Hb. exists (2 * bound * bound + 1). intros D maxSteps HD Hmax.
    apply runSimulation_collides. nia.
  - apply runSimulation_collides. lia.
Qed.

Lemma eventual_collision_witness :
  exists S : Z, forall D maxSteps : Z,
    Z.abs D <= 100 -> S <= maxSteps ->
    hasCollided (runSimulation D maxSteps) = true.
Proof.
  apply (proj1 eventual_collision 100). lia.
Defined.

(** C2 (as stated) fails: with separation 0 both trains move forward on the
    first tick and the collision is recorded at position 1, not 0. *)
Lemma collision_at_zero_counterexample :
  collisionPosition (runSimulation 0 10) <> Some 0.
Proof. vm_compute. discriminate. Qed.

(** C2 (amended): for every separation [D > 0] and every budget of at least
    [2 * D * D] ticks the run collides with [collisionPosition = D]; and
    [runSimulation 0 10] collides after exactly one tick with
    [collisionPosition = 1]. *)
Theorem collision_position (D maxSteps : Z) :
  (0 < D -> 2 * D * D <= maxSteps ->
   hasCollided (runSimulation D maxSteps) = true /\
   collisionPosition (runSimulation D maxSteps) = Some D) /\
  hasCollided (runSimulation 0 10) = true /\
  stepCount (runSimulation 0 10) = 1 /\
  collisionPosition (runSimulation 0 10) = Some 1.
Proof.
  split.
  - intros HD Hmax. rewrite runSimulation_positive by assumption. split; reflexivity.
  - rewrite runSimulation_zero by lia. repeat split.
Qed.

Lemma collision_position_witness :
  collisionPosition (runSimulation 5 100) = Some 5.
Proof.
  apply (proj1 (collision_position 5 100)); lia.
Defined.

(* ================================================================== *)
(** ** Symmetry *)

(** C8 (as stated) fails: both trains start by moving forward whatever the
    sign of the separation, so after one tick train A is at 1 for
    separation 1 and for separation -1. *)
Lemma mirror_counterexample :
  ~ (forall (D : Z) (t : nat) (id : TrainId),
       position (train_of id (simulateSteps t (createSimulation (- D)))) =
       - position (train_of id (simulateSteps t (createSimulation D)))).
Proof. intros H. specialize (H 1 1%nat A). vm_compute in H. discriminate. Qed.

(** C8 (amended): where the separation and the ticks stay within the safe
    integers ([|D| + t <= max_safe_integer]), tick for tick, the run with
    separation [- D] is the run with separation [D] with the two trains
    exchanged and every position lowered by [D]: each train's position
    after [t] ticks from [createSimulation (- D)] is the other train's
    position after [t] ticks from [createSimulation D], minus [D]. *)
Theorem exchange_symmetry (D : Z) (t : nat) (id : TrainId) :
  Z.abs D + Z.of_nat t <= max_safe_integer ->
  position (train_of id (simulateSteps t (createSimulation (- D)))) =
  position (other_of id (simulateSteps t (createSimulation D))) - D.
Proof.
  intros _. rewrite createSimulation_opp, simulateSteps_swap_shift.
  destruct id; cbn; lia.
Qed.

Lemma exchange_symmetry_witness :
  Z.abs 3 + Z.of_nat 17 <= max_safe_integer /\
  position (train_of B (simulateSteps 17 (createSimulation (- 3)))) =
  position (other_of B (simulateSteps 17 (createSimulation 3))) - 3.
Proof.
  assert (H : Z.abs 3 + Z.of_nat 17 <= max_safe_integer) by (apply Z.leb_le; reflexivity).
  split; [ exact H | exact (exchange_symmetry 3 17 B H) ].
Defined.

(* ================================================================== *)
(** ** The loop and the ticks *)

Lemma run_loop_steps (fuel : nat) (maxSteps : Z) (w : SimulationState) :
  fuel = Z.to_nat (maxSteps - stepCount w) ->
  run_loop fuel maxSteps w = simulateSteps fuel w.
Proof.
  revert w. induction fuel as [| fuel IH]; intros w Hfuel; [ reflexivity | ].
  destruct (hasCollided w) eqn:Hc.
  - rewrite run_loop_collided, simulateSteps_collided by assumption. reflexivity.
  - cbn. rewrite Hc. destruct (Z.ltb_spec (stepCount w) maxSteps); [ cbn | lia ].
    apply IH. rewrite simulateStep_stepCount by assumption. lia.
Qed.

(** X1: [runSimulation distance maxSteps] is [maxSteps] applications of
    [simulateStep] to [createSimulation distance] (none when [maxSteps] is
    not positive): stopping at the collision and ticking on give the same
    world. *)
Theorem runSimulation_as_steps (D maxSteps : Z) :
  runSimulation D maxSteps = simulateSteps (Z.to_nat maxSteps) (createSimulation D).
Proof.
  unfold runSimulation. apply run_loop_steps. cbn. f_equal. lia.
Qed.

Lemma simulateSteps_stepCount (n : nat) (w : SimulationState) :
  stepCount w <= stepCount (simulateSteps n w) <= stepCount w + Z.of_nat n /\
  (hasCollided (simulateSteps n w) = false ->
   stepCount (simulateSteps n w) = stepCount w + Z.of_nat n).
Proof.
  revert w. induction n as [| n IH]; intros w.
  - cbn. split; [ lia | intros _; lia ].
  - destruct (hasCollided w) eqn:Hc.
    + rewrite simulateSteps_collided by assumption. split; [ lia | congruence ].
    + cbn [simulateSteps]. destruct (IH (simulateStep w)) as [Hle Heq].
      rewrite simulateStep_stepCount in Hle, Heq by assumption.
      split; [ lia | intros Hlive; rewrite Heq by assumption; lia ].
Qed.



(** X3: [runSimulation] never overruns its budget and stops short of it
    only on a collision: with [maxSteps <= 0] it returns the initial world
    untouched, and with [maxSteps >= 0] the result has
    [0 <= stepCount <= maxSteps], with [stepCount = maxSteps] when it has not
    collided. *)
Theorem runSimulation_budget (D maxSteps : Z) :
  (maxSteps <= 0 -> runSimulation D maxSteps = createSimulation D) /\
  (0 <= maxSteps ->
   0 <= stepCount (runSimulation D maxSteps) <= maxSteps /\
   (hasCollided (runSimulation D maxSteps) = false ->
    stepCount (runSimulation D maxSteps) = maxSteps)).
Proof.
  split.
  - intros Hle. unfold runSimulation.
    replace (Z.to_nat maxSteps) with 0%nat by lia. reflexivity.
  - intros Hge. unfold runSimulation.
    rewrite run_loop_steps by (cbn; f_equal; lia).
    destruct (simulateSteps_stepCount (Z.to_nat maxSteps) (createSimulation D)) as [Hle Heq].
    cbn [stepCount createSimulation] in Hle, Heq.
    split; [ lia | intros Hlive; rewrite Heq by assumption; lia ].
Qed.

Lemma runSimulation_budget_witness :
  runSimulation 0 0 = createSimulation 0 /\
  stepCount (runSimulation 3 17) = 17.
Proof.
  split.
  - apply (proj1 (runSimulation_budget 0 0)). lia.
  - apply (proj2 (runSimulation_budget 3 17)); [ lia | reflexivity ].
Defined.

(* ================================================================== *)
(** ** What a tick keeps *)

Lemma tick_parachutePosition (t : TrainState) (otherHome : Z) :
  parachutePosition (tick t otherHome) = parachutePosition t.
Proof. apply applyAction_parachutePosition. Qed.

Lemma simulateStep_parachutePosition (id : TrainId) (w : SimulationState) :
  parachutePosition (train_of id (simulateStep w)) = parachutePosition (train_of id w).
Proof.
  destruct (hasCollided w) eqn:Hc.
  - now rewrite simulateStep_collided.
  - rewrite simulateStep_train by assumption. apply tick_parachutePosition.
Qed.

Lemma simulateSteps_parachutePosition (id : TrainId) (n : nat) (w : SimulationState) :
  parachutePosition (train_of id (simulateSteps n w)) = parachutePosition (train_of id w).
Proof.
  revert w. induction n as [| n IH]; intros w; cbn; [ reflexivity | ].
  now rewrite IH, simulateStep_parachutePosition.
Qed.

(** X4: the parachutes never move: after any number of ticks from any
    world each train's [parachutePosition] is what it was, so in a run from
    [createSimulation D] train A's is 0 and train B's is [D]. *)
Theorem parachutes_fixed (D : Z) (n : nat) (w : SimulationState) (id : TrainId) :
  parachutePosition (train_of id (simulateSteps n w)) = parachutePosition (train_of id w) /\
  parachutePosition (trainA (simulateSteps n (createSimulation D))) = 0 /\
  parachutePosition (trainB (simulateSteps n (createSimulation D))) = D.
Proof.
  split; [ apply simulateSteps_parachutePosition | ].
  split; [ apply (simulateSteps_parachutePosition A) | apply (simulateSteps_parachutePosition B) ].
Qed.




(* ================================================================== *)
(** ** The collision fields *)

Lemma simulateStep_collision_ok (w : SimulationState) :
  hasCollided w = false \/ collision_ok w -> collision_ok (simulateStep w).
Proof.
  destruct (hasCollided w) eqn:Hc.
  - intros [Hf | Hok]; [ discriminate | now rewrite simulateStep_collided ].
  - intros _. rewrite simulateStep_live by assumption. unfold collision_ok. cbn.
    split; reflexivity.
Qed.

Lemma simulateSteps_collision_ok (n : nat) (w : SimulationState) :
  hasCollided w = false \/ collision_ok w ->
  (0 < n)%nat \/ collision_ok w ->
  collision_ok (simulateSteps n w).
Proof.
  revert w. induction n as [| n IH]; intros w Hw Hn.
  - destruct Hn as [Hn | Hok]; [ lia | exact Hok ].
  - cbn [simulateSteps]. pose proof (simulateStep_collision_ok w Hw) as Hok.
    apply IH; right; exact Hok.
Qed.

(** X6: in a run from [createSimulation D], from the first tick on (and
    from the start when [D <> 0]), [hasCollided] is true exactly when the two
    trains have the same position, and [collisionPosition] is that position
    when they have and [null] when they have not. *)
Theorem collision_fields (D : Z) (n : nat) :
  D <> 0 \/ (0 < n)%nat ->
  (hasCollided (simulateSteps n (createSimulation D)) = true <->
   position (trainA (simulateSteps n (createSimulation D))) =
   position (trainB (simulateSteps n (createSimulation D)))) /\
  collisionPosition (simulateSteps n (createSimulation D)) =
  (if hasCollided (simulateSteps n (createSimulation D))
   then Some (position (trainA (simulateSteps n (createSimulation D))))
   else None).
Proof.
  intros Hstart.
  assert (Hok : collision_ok (simulateSteps n (createSimulation D))).
  { apply simulateSteps_collision_ok; [ now left | ].
    destruct Hstart as [HD | Hn]; [ right | now left ].
    unfold collision_ok. split; [ | reflexivity ].
    change (false = (0 =? D)). symmetry. apply Z.eqb_neq. lia. }
  destruct Hok as [Hc Hp]. split; [ | exact Hp ].
  rewrite Hc. unfold checkCollision. apply Z.eqb_eq.
Qed.

Lemma collision_fields_witness :
  hasCollided (simulateSteps 1 (createSimulation 0)) = true <->
  position (trainA (simulateSteps 1 (createSimulation 0))) =
  position (trainB (simulateSteps 1 (createSimulation 0))).
Proof.
  apply (collision_fields 0 1). right. lia.
Defined.

(* ================================================================== *)
(** ** The latch *)

(** The latch after a tick: it was set, or the train stood on the foreign
    parachute. *)
Lemma tick_isWaiting (t : TrainState) (otherHome : Z) :
  isWaiting (tick t otherHome) = isWaiting t || isAtForeignParachute t otherHome.
Proof.
  destruct (isWaiting t) eqn:Hw.
  - rewrite tick_latched by assumption. now rewrite Hw.
  - destruct (isAtForeignParachute t otherHome) eqn:Hf.
    + now rewrite tick_latches.
    + rewrite tick_moves by assumption.
      match goal with
      | |- isWaiting (applyPhaseTransition ?m) = _ =>
          destruct (applyPhaseTransition_keeps m) as (_ & _ & _ & ->)
      end.
      destruct (sweepPhase t); cbn; exact Hw.
Qed.

Lemma tick_latch_place (t : TrainState) (otherHome : Z) :
  (isWaiting t = true -> isAtForeignParachute t otherHome = true) ->
  isWaiting (tick t otherHome) = true ->
  isAtForeignParachute (tick t otherHome) otherHome = true.
Proof.
  intros Hinv. rewrite tick_isWaiting.
  destruct (isWaiting t) eqn:Hw.
  - intros _. rewrite tick_latched by assumption. now apply Hinv.
  - cbn. intros Hf. now rewrite tick_latches.
Qed.

Lemma other_of_parachutePosition (id : TrainId) (w : SimulationState) :
  parachutePosition (other_of id (simulateStep w)) = parachutePosition (other_of id w).
Proof.
  destruct id; [ apply (simulateStep_parachutePosition B) | apply (simulateStep_parachutePosition A) ].
Qed.

Lemma simulateStep_latch_place (w : SimulationState) :
  (forall id, isWaiting (train_of id w) = true ->
              isAtForeignParachute (train_of id w) (parachutePosition (other_of id w)) = true) ->
  forall id, isWaiting (train_of id (simulateStep w)) = true ->
             isAtForeignParachute (train_of id (simulateStep w))
               (parachutePosition (other_of id (simulateStep w))) = true.
Proof.
  intros Hinv id. rewrite other_of_parachutePosition.
  destruct (hasCollided w) eqn:Hc.
  - rewrite simulateStep_collided by assumption. apply Hinv.
  - rewrite simulateStep_train by assumption. apply tick_latch_place, Hinv.
Qed.

Lemma simulateSteps_latch_place (n : nat) (w : SimulationState) :
  (forall id, isWaiting (train_of id w) = true ->
              isAtForeignParachute (train_of id w) (parachutePosition (other_of id w)) = true) ->
  forall id, isWaiting (train_of id (simulateSteps n w)) = true ->
             isAtForeignParachute (train_of id (simulateSteps n w))
               (parachutePosition (other_of id (simulateSteps n w))) = true.
Proof.
  revert w. induction n as [| n IH]; intros w Hinv; cbn [simulateSteps]; [ exact Hinv | ].
  apply IH, simulateStep_latch_place, Hinv.
Qed.

(** X7: in every state of a run from [createSimulation D], a train whose
    latch is set stands on the other train's parachute and not on its own. *)
Theorem waits_on_foreign_parachute (D : Z) (n : nat) (id : TrainId) :
  isWaiting (train_of id (simulateSteps n (createSimulation D))) = true ->
  position (train_of id (simulateSteps n (createSimulation D))) =
  parachutePosition (other_of id (simulateSteps n (createSimulation D))) /\
  position (train_of id (simulateSteps n (createSimulation D))) <>
  parachutePosition (train_of id (simulateSteps n (createSimulation D))).
Proof.
  intros Hw. apply isAtForeignParachute_spec.
  - apply simulateSteps_invariant; [ | apply createSimulation_offset_ok ].
    intros t otherHome. apply applyAction_offset_ok.
  - apply simulateSteps_latch_place; [ | exact Hw ].
    intros [|]; discriminate.
Qed.

Lemma waits_on_foreign_parachute_witness :
  isWaiting (train_of B (simulateSteps 47 (createSimulation (-5)))) = true /\
  position (train_of B (simulateSteps 47 (createSimulation (-5)))) = 0.
Proof.
  assert (H : isWaiting (train_of B (simulateSteps 47 (createSimulation (-5)))) = true)
    by reflexivity.
  split; [ exact H | ].
  destruct (waits_on_foreign_parachute (-5) 47 B H) as [Hp _].
  rewrite Hp. reflexivity.
Defined.

(** X8: the latch after one tick of the driver on a live world is set
    exactly when it was set before or the train stood, away from its own
    parachute, on the other train's. *)
Theorem latch_set_only_on_foreign_parachute (id : TrainId) (w : SimulationState) :
  hasCollided w = false ->
  isWaiting (train_of id (simulateStep w)) =
  isWaiting (train_of id w) ||
  ((position (train_of id w) =? parachutePosition (other_of id w)) &&
   negb (distanceFromHome (train_of id w) =? 0)).
Proof.
  intros Hc. rewrite simulateStep_train by assumption. apply tick_isWaiting.
Qed.

Lemma latch_set_only_on_foreign_parachute_witness :
  isWaiting (train_of A (searching_world 3 return_from_forward 3 0)) = false /\
  isWaiting (train_of A (simulateStep (searching_world 3 return_from_forward 3 0))) = true.
Proof.
  split; [ reflexivity | ].
  rewrite (latch_set_only_on_foreign_parachute A); reflexivity.
Defined.

(* ================================================================== *)
(** ** The status bar *)

Lemma statusOf_swap_shift (c : Z) (w : SimulationState) :
  statusOf (swap_shift c w) = statusOf w.
Proof. unfold statusOf. cbn. now rewrite orb_comm. Qed.

Lemma simulateStep_status (w : SimulationState) :
  status_rank (statusOf w) <= status_rank (statusOf (simulateStep w)).
Proof.
  destruct (hasCollided w) eqn:Hc; [ rewrite simulateStep_collided by assumption; lia | ].
  unfold statusOf at 1. rewrite Hc.
  destruct (isWaiting (trainA w)) eqn:Ha.
  - pose proof (simulateStep_latched A w Ha) as He. cbn in He.
    unfold statusOf. rewrite He, Ha.
    destruct (hasCollided (simulateStep w)); cbn; lia.
  - destruct (isWaiting (trainB w)) eqn:Hb.
    + pose proof (simulateStep_latched B w Hb) as He. cbn in He.
      unfold statusOf. rewrite He, Hb, !orb_true_r.
      destruct (hasCollided (simulateStep w)); cbn; lia.
    + cbn. destruct (statusOf (simulateStep w)); cbn; lia.
Qed.

(** X9: the status shown never goes back: from any world, ticking takes it
    only along Searching, Waiting, Collision. *)
Theorem status_never_goes_back (n : nat) (w : SimulationState) :
  status_rank (statusOf w) <= status_rank (statusOf (simulateSteps n w)).
Proof.
  revert w. induction n as [| n IH]; intros w; cbn [simulateSteps]; [ lia | ].
  specialize (IH (simulateStep w)). pose proof (simulateStep_status w). lia.
Qed.

(* ================================================================== *)
(** ** The schedule of a run with positive separation *)

Lemma simulateSteps_approaching (D : Z) (n : nat) (w : SimulationState) :
  0 < D -> approaching D w -> stepCount w + Z.of_nat n < 2 * D * D ->
  approaching D (simulateSteps n w) /\
  stepCount (simulateSteps n w) = stepCount w + Z.of_nat n.
Proof.
  intros HD. revert w. induction n as [| n IH]; intros w Hw Hn.
  - cbn. split; [ exact Hw | lia ].
  - cbn [simulateSteps]. destruct (approaching_live D w Hw) as [Hlive _].
    pose proof (simulateStep_stepCount w Hlive) as Hsc.
    destruct (approaching_step D w HD Hw) as [Hnext | Hmet].
    + destruct (IH (simulateStep w) Hnext) as [Ha Hs]; [ lia | ].
      split; [ exact Ha | lia ].
    + rewrite Hmet in Hsc. cbn [stepCount met_world] in Hsc. lia.
Qed.

Lemma simulateSteps_meets (D : Z) (n : nat) (w : SimulationState) :
  0 < D -> approaching D w -> 2 * D * D <= stepCount w + Z.of_nat n ->
  simulateSteps n w = met_world D.
Proof.
  intros HD. revert w. induction n as [| n IH]; intros w Hw Hn;
    destruct (approaching_live D w Hw) as [Hlive Hcount].
  - lia.
  - cbn [simulateSteps].
    destruct (approaching_step D w HD Hw) as [Hnext | ->].
    + apply IH; [ exact Hnext | ]. rewrite simulateStep_stepCount by assumption. lia.
    + now apply simulateSteps_collided.
Qed.

(** No two moments of the schedule fall on the same tick. *)
Lemma elapsed_inj (p p' : SweepPhase) (n n' k k' : Z) :
  0 <= k < n -> 0 <= k' < n' ->
  elapsed p n k = elapsed p' n' k' -> p = p' /\ n = n' /\ k = k'.
Proof.
  intros Hk Hk' He. unfold elapsed in He.
  assert (Hi : 0 <= phase_index p <= 3) by (destruct p; cbn; lia).
  assert (Hi' : 0 <= phase_index p' <= 3) by (destruct p'; cbn; lia).
  assert (Hn : n = n').
  { destruct (Z.lt_trichotomy n n') as [Hlt | [Heq | Hgt]]; [ exfalso | exact Heq | exfalso ].
    - assert (2 * n * (n - 1) + 4 * n <= 2 * n' * (n' - 1)) by nia. nia.
    - assert (2 * n' * (n' - 1) + 4 * n' <= 2 * n * (n - 1)) by nia. nia. }
  subst n'. destruct p, p'; cbn [phase_index] in He; (split; [ | split ]);
    first [ reflexivity | nia ].
Qed.

(** The worlds of the schedule are told apart by their [stepCount]. *)
Lemma approaching_unique (D : Z) (w w' : SimulationState) :
  approaching D w -> approaching D w' -> stepCount w = stepCount w' -> w = w'.
Proof.
  intros [p n k Hn Hk Hd | k Hk] [p' n' k' Hn' Hk' Hd' | k' Hk'];
    cbn [stepCount searching_world holding_world]; intros He.
  - destruct (elapsed_inj _ _ _ _ _ _ Hk Hk' He) as (-> & -> & ->). reflexivity.
  - destruct (elapsed_inj p return_from_forward n D k k') as (-> & -> & ->); try lia.
    destruct Hd as [Hd | [_ [Hd | [_ Hd]]]]; [ lia | discriminate | lia ].
  - destruct (elapsed_inj return_from_forward p' D n' k k') as (<- & <- & <-); try lia.
    destruct Hd' as [Hd | [_ [Hd | [_ Hd]]]]; [ lia | discriminate | lia ].
  - unfold elapsed in He. replace k' with k by lia. reflexivity.
Qed.

(** Every world of the schedule is reached, on the tick its [stepCount] says. *)
Lemma approaching_reached (D : Z) (w : SimulationState) :
  0 < D -> approaching D w ->
  simulateSteps (Z.to_nat (stepCount w)) (createSimulation D) = w.
Proof.
  intros HD Hw. destruct (approaching_live D w Hw) as [_ Hcount].
  destruct (simulateSteps_approaching D (Z.to_nat (stepCount w)) (createSimulation D) HD)
    as [Ha Hs].
  - now apply createSimulation_approaching.
  - cbn [stepCount createSimulation]. lia.
  - apply (approaching_unique D); [ exact Ha | exact Hw | ].
    rewrite Hs. cbn [stepCount createSimulation]. lia.
Qed.

(** X10: while train A has not reached B's parachute the two trains sweep
    in lockstep on a fixed timetable: with separation [D > 0], [k] steps
    into sub-phase [p] of cycle [n] (for [n < D], for the forward sweep of
    cycle [D], and for the moment A arrives on B's parachute) is reached
    after exactly [2 n (n - 1) + phase_index p * n + k] ticks, with both
    trains displaced by [sweep_offset p n k] from their parachutes; this
    where the separation and the ticks stay within the safe integers
    ([D + elapsed p n k <= max_safe_integer]). *)
Theorem search_schedule (D : Z) (p : SweepPhase) (n k : Z) :
  0 < D -> 0 <= k < n ->
  n < D \/ (n = D /\ (p = sweep_forward \/ (p = return_from_forward /\ k = 0))) ->
  D + elapsed p n k <= max_safe_integer ->
  simulateSteps (Z.to_nat (elapsed p n k)) (createSimulation D) = searching_world D p n k.
Proof.
  intros HD Hk Hn _.
  apply (approaching_reached D (searching_world D p n k) HD).
  constructor; [ lia | exact Hk | exact Hn ].
Qed.

Lemma search_schedule_witness :
  simulateSteps (Z.to_nat (elapsed sweep_backward 3 1)) (createSimulation 7) =
  searching_world 7 sweep_backward 3 1.
Proof.
  apply search_schedule; [ lia | lia | left; lia | apply Z.leb_le; reflexivity ].
Defined.

(** X11: with separation [D > 0], on tick [2 D D - D + k] for
    [1 <= k < D] train A is latched on B's parachute at [D] and train B is
    [k] steps into its return, at [2 D - k], not yet collided. *)
Theorem waiting_schedule (D k : Z) :
  0 < D -> 1 <= k < D ->
  simulateSteps (Z.to_nat (2 * D * D - D + k)) (createSimulation D) = holding_world D k.
Proof.
  intros HD Hk.
  replace (2 * D * D - D + k) with (stepCount (holding_world D k))
    by (cbn [stepCount holding_world]; unfold elapsed, phase_index; lia).
  apply (approaching_reached D (holding_world D k) HD). now constructor.
Qed.

Lemma waiting_schedule_witness :
  simulateSteps (Z.to_nat (2 * 3 * 3 - 3 + 2)) (createSimulation 3) = holding_world 3 2.
Proof.
  apply waiting_schedule; lia.
Defined.

(** X12: with separation [D > 0], through tick [2 D D - D], and where the
    separation and the ticks stay within the safe integers
    ([D + n <= max_safe_integer]), nothing has collided, no latch is set,
    the two trains have the same sweep phase, phase number, steps in phase
    and distance from home, and train B is exactly [D] ahead of train A. *)
Theorem lockstep_search (D : Z) (n : nat) :
  0 < D -> Z.of_nat n <= 2 * D * D - D ->
  D + Z.of_nat n <= max_safe_integer ->
  hasCollided (simulateSteps n (createSimulation D)) = false /\
  isWaiting (trainA (simulateSteps n (createSimulation D))) = false /\
  isWaiting (trainB (simulateSteps n (createSimulation D))) = false /\
  sweepPhase (trainB (simulateSteps n (createSimulation D))) =
  sweepPhase (trainA (simulateSteps n (createSimulation D))) /\
  phaseNumber (trainB (simulateSteps n (createSimulation D))) =
  phaseNumber (trainA (simulateSteps n (createSimulation D))) /\
  stepsInPhase (trainB (simulateSteps n (createSimulation D))) =
  stepsInPhase (trainA (simulateSteps n (createSimulation D))) /\
  distanceFromHome (trainB (simulateSteps n (createSimulation D))) =
  distanceFromHome (trainA (simulateSteps n (createSimulation D))) /\
  position (trainB (simulateSteps n (createSimulation D))) =
  position (trainA (simulateSteps n (createSimulation D))) + D.
Proof.
  intros HD Hn _.
  destruct (simulateSteps_approaching D n (createSimulation D) HD) as [Ha Hs].
  - now apply createSimulation_approaching.
  - cbn [stepCount createSimulation]. lia.
  - cbn [stepCount createSimulation] in Hs.
    destruct Ha as [p m k Hm Hk Hd | k Hk].
    + cbn. repeat split; lia.
    + cbn [stepCount holding_world] in Hs. unfold elapsed, phase_index in Hs. lia.
Qed.

Lemma lockstep_search_witness :
  position (trainB (simulateSteps 15 (createSimulation 3))) =
  position (trainA (simulateSteps 15 (createSimulation 3))) + 3.
Proof.
  apply (lockstep_search 3 15); [ lia | lia | apply Z.leb_le; reflexivity ].
Defined.

(* ================================================================== *)
(** ** When and where the trains meet *)

Lemma runSimulation_early (D maxSteps : Z) :
  0 < D -> maxSteps < 2 * D * D ->
  approaching D (runSimulation D maxSteps) /\
  stepCount (runSimulation D maxSteps) = Z.max maxSteps 0.
Proof.
  intros HD Hmax. unfold runSimulation.
  rewrite run_loop_steps by (cbn; f_equal; lia).
  destruct (simulateSteps_approaching D (Z.to_nat maxSteps) (createSimulation D) HD)
    as [Ha Hs].
  - now apply createSimulation_approaching.
  - cbn [stepCount createSimulation]. lia.
  - split; [ exact Ha | rewrite Hs; cbn [stepCount createSimulation]; lia ].
Qed.

Lemma collision_time_positive (D maxSteps : Z) :
  0 < D ->
  (hasCollided (runSimulation D maxSteps) = true <-> 2 * D * D <= maxSteps) /\
  (2 * D * D <= maxSteps -> stepCount (runSimulation D maxSteps) = 2 * D * D).
Proof.
  intros HD. split; [ split | ].
  - intros Hc. destruct (Z.le_gt_cases (2 * D * D) maxSteps) as [Hle | Hgt]; [ exact Hle | ].
    destruct (runSimulation_early D maxSteps HD) as [Ha _]; [ lia | ].
    destruct (approaching_live D _ Ha) as [Hlive _]. congruence.
  - intros Hle. now rewrite runSimulation_positive.
  - intros Hle. now rewrite runSimulation_positive.
Qed.

Lemma runSimulation_flip (D maxSteps : Z) :
  runSimulation D maxSteps = swap_shift D (runSimulation (- D) maxSteps).
Proof.
  pose proof (runSimulation_opp (- D) maxSteps) as H.
  now rewrite Z.opp_involutive in H.
Qed.

(** X13: for a separation [D <> 0] the trains collide on tick [2 D D] and
    not before: [runSimulation D maxSteps] has collided exactly when
    [maxSteps >= 2 D D], and then its [stepCount] is [2 D D]. *)
Theorem collision_time (D maxSteps : Z) :
  D <> 0 ->
  (hasCollided (runSimulation D maxSteps) = true <-> 2 * D * D <= maxSteps) /\
  (2 * D * D <= maxSteps -> stepCount (runSimulation D maxSteps) = 2 * D * D).
Proof.
  intros HD. destruct (Z.lt_trichotomy D 0) as [Hneg | [Hz | Hpos]]; [ | lia | ].
  - rewrite runSimulation_flip. cbn [hasCollided stepCount swap_shift].
    replace (2 * D * D) with (2 * - D * - D) by lia.
    apply collision_time_positive. lia.
  - now apply collision_time_positive.
Qed.

Lemma collision_time_witness :
  hasCollided (runSimulation (-5) 49) = true <-> 2 * -5 * -5 <= 49.
Proof.
  apply (collision_time (-5) 49). lia.
Defined.

(** X14: the train with the lower coordinate is the one that waits.  With
    [D > 0] and a budget of at least [2 D D], train A ends latched at [D]
    and train B, unlatched, back on its own parachute at [D]; with [D < 0]
    train B ends latched at 0 and train A, unlatched, back on its own
    parachute at 0, and [collisionPosition] is 0. *)
Theorem meeting_place (D maxSteps : Z) :
  2 * D * D <= maxSteps ->
  (0 < D ->
   isWaiting (trainA (runSimulation D maxSteps)) = true /\
   isWaiting (trainB (runSimulation D maxSteps)) = false /\
   position (trainA (runSimulation D maxSteps)) = D /\
   position (trainB (runSimulation D maxSteps)) = D) /\
  (D < 0 ->
   isWaiting (trainB (runSimulation D maxSteps)) = true /\
   isWaiting (trainA (runSimulation D maxSteps)) = false /\
   position (trainA (runSimulation D maxSteps)) = 0 /\
   position (trainB (runSimulation D maxSteps)) = 0 /\
   collisionPosition (runSimulation D maxSteps) = Some 0).
Proof.
  intros Hmax. split; intros HD.
  - rewrite runSimulation_positive by assumption. cbn. repeat split; lia.
  - rewrite runSimulation_negative by assumption. cbn.
    repeat split; try lia. f_equal. lia.
Qed.

Lemma meeting_place_witness :
  isWaiting (trainB (runSimulation (-5) 100)) = true /\
  collisionPosition (runSimulation (-5) 100) = Some 0.
Proof.
  assert (Hmax : 2 * -5 * -5 <= 100) by lia.
  assert (HD : -5 < 0) by lia.
  destruct (proj2 (meeting_place (-5) 100 Hmax) HD) as (Hb & _ & _ & _ & Hc).
  split; [ exact Hb | exact Hc ].
Defined.

(** X15: where the separation and the budget stay within the safe integers
    ([|D| + max 0 maxSteps <= max_safe_integer]), a run with separation
    [- D] is, field for field, the run with separation [D] with the two
    trains exchanged and every coordinate lowered by [D]; in particular both
    collide or not together, after the same number of ticks. *)
Theorem runSimulation_exchange (D maxSteps : Z) :
  Z.abs D + Z.max 0 maxSteps <= max_safe_integer ->
  runSimulation (- D) maxSteps = swap_shift (- D) (runSimulation D maxSteps) /\
  hasCollided (runSimulation (- D) maxSteps) = hasCollided (runSimulation D maxSteps) /\
  stepCount (runSimulation (- D) maxSteps) = stepCount (runSimulation D maxSteps).
Proof.
  intros _. rewrite runSimulation_opp. repeat split.
Qed.

Lemma runSimulation_exchange_witness :
  Z.abs 5 + Z.max 0 30 <= max_safe_integer /\
  runSimulation (- 5) 30 = swap_shift (- 5) (runSimulation 5 30).
Proof.
  assert (H : Z.abs 5 + Z.max 0 30 <= max_safe_integer) by (apply Z.leb_le; reflexivity).
  split; [ exact H | exact (proj1 (runSimulation_exchange 5 30 H)) ].
Defined.

(* ================================================================== *)
(** ** The status along a run *)

Lemma approaching_status (D : Z) (w : SimulationState) :
  approaching D w ->
  statusOf w = if stepCount w <=? 2 * D * D - D then Searching else Waiting.
Proof.
  intros [p n k Hn Hk Hd | k Hk]; cbn [stepCount searching_world holding_world].
  - assert (Hle : elapsed p n k <= 2 * D * D - D).
    { unfold elapsed.
      destruct Hd as [Hd | [-> [-> | [-> ->]]]]; cbn [phase_index]; try nia.
      destruct p; cbn [phase_index]; nia. }
    destruct (Z.leb_spec (elapsed p n k) (2 * D * D - D)); [ reflexivity | lia ].
  - assert (Hgt : 2 * D * D - D < elapsed return_from_forward D k)
      by (unfold elapsed, phase_index; lia).
    destruct (Z.leb_spec (elapsed return_from_forward D k) (2 * D * D - D));
      [ lia | reflexivity ].
Qed.

Lemma status_timeline_positive (D : Z) (n : nat) :
  0 < D ->
  statusOf (simulateSteps n (createSimulation D)) =
  if Z.of_nat n <=? 2 * D * D - D then Searching
  else if Z.of_nat n <? 2 * D * D then Waiting
  else Collision.
Proof.
  intros HD. destruct (Z.ltb_spec (Z.of_nat n) (2 * D * D)) as [Hlt | Hge].
  - destruct (simulateSteps_approaching D n (createSimulation D) HD) as [Ha Hs].
    + now apply createSimulation_approaching.
    + cbn [stepCount createSimulation]. lia.
    + rewrite (approaching_status D _ Ha), Hs. cbn [stepCount createSimulation].
      rewrite Z.add_0_l. reflexivity.
  - rewrite (simulateSteps_meets D n (createSimulation D) HD).
    + destruct (Z.leb_spec (Z.of_nat n) (2 * D * D - D)); [ lia | reflexivity ].
    + now apply createSimulation_approaching.
    + cbn [stepCount createSimulation]. lia.
Qed.

(** X16: the status bar along a run from [createSimulation D], for any
    [D]: Searching through tick [2 D D - |D|], Waiting on the following
    ticks before [2 D D], Collision from tick [2 D D] on (from tick 1 when
    [D = 0], and then without any Waiting). *)
Theorem status_timeline (D : Z) (n : nat) :
  statusOf (simulateSteps n (createSimulation D)) =
  if Z.of_nat n <=? 2 * D * D - Z.abs D then Searching
  else if Z.of_nat n <? 2 * D * D then Waiting
  else Collision.
Proof.
  destruct (Z.lt_trichotomy D 0) as [Hneg | [-> | Hpos]].
  - pose proof (createSimulation_opp (- D)) as Hopp.
    rewrite Z.opp_involutive in Hopp.
    rewrite Hopp, simulateSteps_swap_shift, statusOf_swap_shift.
    rewrite status_timeline_positive by lia.
    replace (2 * - D * - D) with (2 * D * D) by lia.
    replace (Z.abs D) with (- D) by lia. reflexivity.
  - destruct n as [| n]; [ reflexivity | ].
    cbn [simulateSteps].
    change (simulateStep (createSimulation 0)) with bumped_world.
    rewrite simulateSteps_collided by reflexivity.
    change (2 * 0 * 0 - Z.abs 0) with 0. change (2 * 0 * 0) with 0.
    destruct (Z.leb_spec (Z.of_nat (S n)) 0); [ lia | ].
    destruct (Z.ltb_spec (Z.of_nat (S n)) 0); [ lia | reflexivity ].
  - rewrite status_timeline_positive by assumption.
    replace (Z.abs D) with D by lia. reflexivity.
Qed.

(* ================================================================== *)
(** ** The railway viewport *)









(** X20: on every state of a run from [createSimulation D] the collision
    indicator is drawn exactly when the trains have collided, and then at
    the pixel offset of train A, which is also that of train B: the
    [collisionPosition!] it reads is never [null]. *)
Theorem collision_indicator (D : Z) (n : nat) (unitSize : Z) :
  collisionLeft (simulateSteps n (createSimulation D)) unitSize =
  (if hasCollided (simulateSteps n (createSimulation D))
   then Some (trainLeft A (simulateSteps n (createSimulation D)) unitSize)
   else None) /\
  (hasCollided (simulateSteps n (createSimulation D)) = true ->
   collisionPosition (simulateSteps n (createSimulation D)) <> None /\
   trainLeft A (simulateSteps n (createSimulation D)) unitSize =
   trainLeft B (simulateSteps n (createSimulation D)) unitSize).
Proof.
  assert (Hok : hasCollided (simulateSteps n (createSimulation D)) = true ->
                collision_ok (simulateSteps n (createSimulation D))).
  { intros Hc. apply simulateSteps_collision_ok; [ now left | ].
    destruct n as [| n]; [ discriminate | left; lia ]. }
  unfold collisionLeft, trainLeft.
  destruct (hasCollided (simulateSteps n (createSimulation D))) eqn:Hc.
  - destruct (Hok eq_refl) as [Hsame Hpos]. rewrite Hc in Hsame, Hpos.
    symmetry in Hsame. apply Z.eqb_eq in Hsame.
    rewrite Hpos. cbn [train_of]. split; [ reflexivity | ].
    intros _. split; [ discriminate | now rewrite Hsame ].
  - split; [ reflexivity | discriminate ].
Qed.

Lemma collision_indicator_witness :
  collisionPosition (simulateSteps 18 (createSimulation 3)) <> None.
Proof.
  apply (proj2 (collision_indicator 3 18 default_unitSize)). reflexivity.
Defined.

(* ================================================================== *)
(** ** Exact integers and doubles *)

Lemma round_exact (z : Z) : Z.abs z <= 2 ^ 53 -> Float64.round z = z.
Proof.
  intros H. unfold Float64.round. apply Z.leb_le in H. now rewrite H.
Qed.

Lemma applyMovement_exact (b : Z) (t : TrainState) (a : TrainAction) (otherHome : Z) :
  b + 1 <= 2 ^ 53 -> safe_train b t ->
  Float64.applyMovement t a otherHome = applyMovement t a otherHome.
Proof.
  intros Hb (Hp & Hd & Hs & Hn).
  destruct a; cbn [Float64.applyMovement applyMovement]; [ | | reflexivity ];
    unfold Float64.add, Float64.sub; rewrite !round_exact by lia; reflexivity.
Qed.

Lemma applyPhaseTransition_exact (t : TrainState) :
  Z.abs (phaseNumber t) + 1 <= 2 ^ 53 ->
  Float64.applyPhaseTransition t = applyPhaseTransition t.
Proof.
  intros Hn. unfold Float64.applyPhaseTransition, applyPhaseTransition.
  destruct (negb (isWaiting t) && (stepsInPhase t >=? phaseNumber t)); [ | reflexivity ].
  cbv zeta. destruct (sweepPhase (set_stepsInPhase 0 t)); try reflexivity.
  unfold Float64.add. cbn [phaseNumber set_stepsInPhase].
  rewrite round_exact by lia. reflexivity.
Qed.

Lemma applyMovement_phaseNumber (t : TrainState) (a : TrainAction) (otherHome : Z) :
  phaseNumber (applyMovement t a otherHome) = phaseNumber t.
Proof.
  destruct a; cbn; try reflexivity.
  destruct (isAtForeignParachute t otherHome); reflexivity.
Qed.

Lemma applyAction_exact (b : Z) (t : TrainState) (a : TrainAction) (otherHome : Z) :
  b + 1 <= 2 ^ 53 -> safe_train b t ->
  Float64.applyAction t a otherHome = applyAction t a otherHome.
Proof.
  intros Hb Hsafe. unfold Float64.applyAction, applyAction.
  rewrite (applyMovement_exact b) by assumption.
  apply applyPhaseTransition_exact. rewrite applyMovement_phaseNumber.
  destruct Hsafe as (_ & _ & _ & Hn). lia.
Qed.

Lemma applyPhaseTransition_counters (t : TrainState) :
  (stepsInPhase (applyPhaseTransition t) = stepsInPhase t \/
   stepsInPhase (applyPhaseTransition t) = 0) /\
  (phaseNumber (applyPhaseTransition t) = phaseNumber t \/
   phaseNumber (applyPhaseTransition t) = phaseNumber t + 1).
Proof.
  unfold applyPhaseTransition.
  destruct (negb (isWaiting t) && (stepsInPhase t >=? phaseNumber t)); [ | auto ].
  cbv zeta. destruct (sweepPhase (set_stepsInPhase 0 t)); cbn; auto.
Qed.

Lemma applyMovement_safe (b : Z) (t : TrainState) (a : TrainAction) (otherHome : Z) :
  safe_train b t ->
  Z.abs (position (applyMovement t a otherHome)) <= b + 1 /\
  Z.abs (distanceFromHome (applyMovement t a otherHome)) <= b + 1 /\
  Z.abs (stepsInPhase (applyMovement t a otherHome)) <= b + 1.
Proof.
  intros (Hp & Hd & Hs & Hn).
  destruct a; cbn; try lia.
  destruct (isAtForeignParachute t otherHome); cbn; lia.
Qed.

(** One tick raises the magnitude of a counter by at most 1. *)
Lemma applyAction_safe (b : Z) (t : TrainState) (a : TrainAction) (otherHome : Z) :
  safe_train b t -> safe_train (b + 1) (applyAction t a otherHome).
Proof.
  intros Hsafe. destruct (applyMovement_safe b t a otherHome Hsafe) as (Hp & Hd & Hs).
  destruct Hsafe as (_ & _ & _ & Hn).
  pose proof (applyMovement_phaseNumber t a otherHome) as Hpn.
  unfold safe_train, applyAction.
  destruct (applyPhaseTransition_keeps (applyMovement t a otherHome)) as (-> & _ & -> & _).
  destruct (applyPhaseTransition_counters (applyMovement t a otherHome)) as [Hst Hnum].
  repeat split; lia.
Qed.

Lemma simulateStep_exact (b : Z) (w : SimulationState) :
  b + 1 <= 2 ^ 53 -> safe_world b w ->
  Float64.simulateStep w = simulateStep w /\ safe_world (b + 1) (simulateStep w).
Proof.
  intros Hb (Ha & Hb' & Hc). unfold Float64.simulateStep, simulateStep, safe_world.
  destruct (hasCollided w).
  - split; [ reflexivity | ].
    unfold safe_train in *. repeat split; lia.
  - rewrite !(applyAction_exact b) by assumption.
    unfold Float64.add. rewrite round_exact by lia. cbn.
    split; [ reflexivity | ].
    split; [ now apply applyAction_safe | split; [ now apply applyAction_safe | lia ] ].
Qed.

Lemma simulateSteps_exact (n : nat) (b : Z) (w : SimulationState) :
  b + Z.of_nat n <= 2 ^ 53 -> safe_world b w ->
  Float64.simulateSteps n w = simulateSteps n w.
Proof.
  revert b w. induction n as [| n IH]; intros b w Hb Hsafe; [ reflexivity | ].
  cbn [Float64.simulateSteps simulateSteps].
  destruct (simulateStep_exact b w) as [-> Hnext]; [ lia | assumption | ].
  apply (IH (b + 1)); [ lia | exact Hnext ].
Qed.

Lemma createSimulation_safe (D : Z) :
  safe_world (Z.abs D + 1) (createSimulation D).
Proof.
  unfold safe_world, safe_train. cbn. repeat split; lia.
Qed.

(** X21: on a run that stays within the safe integers
    ([|D| + n <= max_safe_integer]) the doubles of the code compute what
    exact integers compute: [n] ticks with every [+= 1] and [-= 1] rounded
    to the nearest double give the same world as [n] ticks in exact
    arithmetic.  Beyond that range they do not: with separation [2 ^ 53]
    the first tick leaves train B where it is with [distanceFromHome] 1. *)
Theorem float64_run_exact (D : Z) (n : nat) :
  (Z.abs D + Z.of_nat n <= max_safe_integer ->
   Float64.simulateSteps n (createSimulation D) = simulateSteps n (createSimulation D)) /\
  position (trainB (Float64.simulateStep (createSimulation (2 ^ 53)))) = 2 ^ 53 /\
  distanceFromHome (trainB (Float64.simulateStep (createSimulation (2 ^ 53)))) = 1 /\
  position (trainB (simulateStep (createSimulation (2 ^ 53)))) = 2 ^ 53 + 1.
Proof.
  split; [ | split; [ | split ]; vm_compute; reflexivity ].
  unfold max_safe_integer. intros Hb.
  apply (simulateSteps_exact n (Z.abs D + 1)); [ lia | apply createSimulation_safe ].
Qed.

Lemma float64_run_exact_witness :
  Float64.simulateSteps 18 (createSimulation 3) = simulateSteps 18 (createSimulation 3).
Proof.
  apply (proj1 (float64_run_exact 3 18)). apply Z.leb_le. reflexivity.
Defined.
